(** * Games dashboard: the dataset loader and the filter-and-aggregate callback

    Shallow embedding of [games_market_dash_Elizaveta_Zhaivoron.py].

    Conventions of the embedding.
    - A pandas [DataFrame] is the list of its rows in order, each paired with
      its index label.  [pd.read_csv] gives the labels [0 .. n-1]
      (a [RangeIndex]); every selection keeps the labels of the rows it keeps.
    - A pandas [Series] is the list of its values, each paired with its label.
    - A score of the base table is a finite float64, taken as the rational
      it is ([Q]); a score that is infinite is outside the embedding.  A
      float64 that the callback computes is a [float]: [NaN] (the mean of an
      empty column), an infinity (a sum that overflows) or a number.
    - The float arithmetic of the two means belongs to pandas and numpy and
      is a parameter, [arithmetic].  What is stated of [callback_with] and
      [engine_with] holds in every arithmetic; [callback], [engine] and
      [aggregate] are their instances at [exact], the arithmetic without
      rounding errors.
    - A cell of the year column is a finite number, an infinity or text
      ([year_cell]): line 11 raises on the last two unless the text is a
      whole number.
    - A Python exception is the constructor [Raise] of [result]. *)

From Stdlib Require Import List String Ascii ZArith QArith Qround.
From Stdlib Require Import Lia Lqa Bool Arith Sorted.
From Stdlib Require Import DecimalString DecimalZ DecimalPos.
Import ListNotations.

Close Scope Q_scope.
Open Scope string_scope.
Open Scope list_scope.
Open Scope nat_scope.

Set Implicit Arguments.

(** ** Exceptions *)

Inductive exn : Type :=
| ValueError      (* astype(int) on a year that is no whole number (which
                     includes pandas' IntCastingNaNError); pd.to_numeric *)
| IndexError      (* years[1] on a list of length one *)
| IndexingError   (* .loc with a boolean Series that cannot be aligned *)
| NameError.      (* a name that is bound to nothing *)

Inductive result (A : Type) : Type :=
| Ok (a : A)
| Raise (e : exn).

Arguments Ok {A} a.
Arguments Raise {A} e.

Definition rbind {A B : Type} (c : result A) (k : A -> result B) : result B :=
  match c with
  | Ok a => k a
  | Raise e => Raise e
  end.

Fixpoint rmap {A B : Type} (f : A -> result B) (l : list A) : result (list B) :=
  match l with
  | [] => Ok []
  | x :: tl =>
      rbind (f x) (fun y => rbind (rmap f tl) (fun ys => Ok (y :: ys)))
  end.

(** ** Frames and series *)

Definition label := nat.

Definition Series (A : Type) : Type := list (label * A).
Definition Frame (R : Type) : Type := list (label * R).

Definition index {A : Type} (s : list (label * A)) : list label := map fst s.
Definition values {A : Type} (s : list (label * A)) : list A := map snd s.

(** [d[name]]: one column of a frame, as a series on the frame's index. *)
Definition column {R A : Type} (f : R -> A) (d : Frame R) : Series A :=
  map (fun ir => (fst ir, f (snd ir))) d.

(** [Index.equals]. *)
Definition index_equals (a b : list label) : bool :=
  if list_eq_dec Nat.eq_dec a b then true else false.

(** [Index.get_indexer_for] followed by [take], one label at a time: the value
    the key holds at label [i], or nothing when the key has no such label. *)
Fixpoint lookup {A : Type} (i : label) (s : Series A) : option A :=
  match s with
  | [] => None
  | (j, a) :: tl => if Nat.eqb i j then Some a else lookup i tl
  end.

(** pandas' [check_bool_indexer]: a boolean Series used as a key is taken as
    it is when its index equals the index of the frame; otherwise it is
    re-indexed on the frame's labels, and a label of the frame that the key
    lacks raises [IndexingError] (unalignable boolean Series). *)
Definition check_bool_indexer {R : Type} (d : Frame R) (key : Series bool)
  : result (list bool) :=
  if index_equals (index key) (index d) then Ok (values key)
  else rmap (fun ir => match lookup (fst ir) key with
                       | Some b => Ok b
                       | None => Raise IndexingError
                       end) d.

(** Rows of [d] at the positions where the mask is [True]. *)
Fixpoint take_mask {R : Type} (d : Frame R) (m : list bool) : Frame R :=
  match d, m with
  | x :: d', b :: m' => if b then x :: take_mask d' m' else take_mask d' m'
  | _, _ => []
  end.

(** [d.loc[key]] and [d[key]] for a boolean Series [key]. *)
Definition loc_bool {R : Type} (d : Frame R) (key : Series bool)
  : result (Frame R) :=
  rbind (check_bool_indexer d key) (fun m => Ok (take_mask d m)).

(** ** The rows of the table *)

(** A finite numeric CSV cell: pandas reads a column of whole numbers as
    int64 and a numeric column with fractions or missing cells as float64.
    A float64 is taken as the rational it is. *)
Inductive number : Type :=
| Int (z : Z)
| Float (q : Q).

(** A present cell of a column that pandas may have read as text
    ([User_Score] holds both numbers and words such as tbd). *)
Inductive cell : Type :=
| Number (n : number)
| Text (s : string).

(** A present cell of the year column: a finite number, an infinity of a
    float64 column, or a cell of a column that pandas read as text. *)
Inductive year_cell : Type :=
| YearNumber (n : number)
| YearInf (negative : bool)
| YearText (s : string).

(** One line of [games.csv] as [pd.read_csv] returns it; [None] is a missing
    cell (NaN).  [raw_Other] stands for the columns the program never names
    (publisher, sales, counts, developer): [dropna] looks at them too. *)
Record RawRecord : Type := {
  raw_Name : option string;
  raw_Platform : option string;
  raw_Year_of_Release : option year_cell;
  raw_Genre : option string;
  raw_Critic_Score : option cell;
  raw_User_Score : option cell;
  raw_Rating : option string;
  raw_Other : list (option cell)
}.

(** A row without missing cells.  [Y], [C] and [U] are the types of the
    columns whose dtype the loader changes: the year and the two scores. *)
Record Row (Y C U : Type) : Type := {
  Name : string;
  Platform : string;
  Year_of_Release : Y;
  Genre : string;
  Critic_Score : C;
  User_Score : U;
  Rating : string;
  Other : list cell
}.

(** A row of the base table. *)
Definition GameRecord : Type := Row Z Q Q.
Definition DataFrame : Type := Frame GameRecord.

(** Column assignment [d[name] = ...] for the three columns that change type. *)
Definition with_Year {Y Y' C U : Type} (y : Y') (r : Row Y C U) : Row Y' C U :=
  {| Name := Name r; Platform := Platform r; Year_of_Release := y;
     Genre := Genre r; Critic_Score := Critic_Score r;
     User_Score := User_Score r; Rating := Rating r; Other := Other r |}.

Definition with_User {Y C U U' : Type} (u : U') (r : Row Y C U) : Row Y C U' :=
  {| Name := Name r; Platform := Platform r;
     Year_of_Release := Year_of_Release r;
     Genre := Genre r; Critic_Score := Critic_Score r;
     User_Score := u; Rating := Rating r; Other := Other r |}.

Definition with_Critic {Y C C' U : Type} (c : C') (r : Row Y C U) : Row Y C' U :=
  {| Name := Name r; Platform := Platform r;
     Year_of_Release := Year_of_Release r;
     Genre := Genre r; Critic_Score := c;
     User_Score := User_Score r; Rating := Rating r; Other := Other r |}.

(** [a & b] on two boolean series that share their index. *)
Definition series_and (a b : Series bool) : Series bool :=
  map (fun p => (fst (fst p), andb (snd (fst p)) (snd (snd p)))) (combine a b).

Definition year_ge (y : Z) (bound : Z) : bool := (bound <=? y)%Z.
Definition year_le (y : Z) (bound : Z) : bool := (y <=? bound)%Z.

(** [(d['Year_of_Release'] >= lo) & (d['Year_of_Release'] <= hi)]: the key
    of lines 17 to 23 and of lines 177 to 183. *)
Definition year_mask {C U : Type} (d : Frame (Row Z C U)) (lo hi : Z)
  : Series bool :=
  series_and (column (fun r => year_ge (Year_of_Release r) lo) d)
             (column (fun r => year_le (Year_of_Release r) hi) d).

Declare Scope result_scope.
Delimit Scope result_scope with result.
Notation "x <- c ;; k" := (rbind c (fun x => k))
  (at level 61, c at next level, right associativity) : result_scope.

(** ** The dataset loader (lines 9 to 26) *)

Section Loader.

(** pandas' reading of a text cell as a number: [Some q] when the text is a
    number, [None] when it is not, which [errors='coerce'] turns into NaN and
    the default [errors='raise'] into [ValueError].  The parser belongs to
    pandas, not to the program, and is left open. *)
Variable parse_number : string -> option Q.

(** Python's [int(s)] on a string: [Some z] when [s] is the numeral of a whole
    number, [None] when it is not and [int] raises [ValueError].  It is what
    [astype(int)] applies to the cells of a column read as text. *)
Variable parse_int : string -> option Z.

(** [pd.read_csv]: the lines in order, labelled [0 .. n-1]. *)
Definition read_csv (lines : list RawRecord) : Frame RawRecord :=
  combine (seq 0 (List.length lines)) lines.

Fixpoint all_present (l : list (option cell)) : option (list cell) :=
  match l with
  | [] => Some []
  | None :: _ => None
  | Some c :: tl =>
      match all_present tl with
      | Some cs => Some (c :: cs)
      | None => None
      end
  end.

(** A line with no missing cell, as the row it is. *)
Definition present (r : RawRecord) : option (Row year_cell cell cell) :=
  match raw_Name r, raw_Platform r, raw_Year_of_Release r, raw_Genre r,
        raw_Critic_Score r, raw_User_Score r, raw_Rating r,
        all_present (raw_Other r) with
  | Some n, Some p, Some y, Some g, Some c, Some u, Some t, Some o =>
      Some {| Name := n; Platform := p; Year_of_Release := y; Genre := g;
              Critic_Score := c; User_Score := u; Rating := t; Other := o |}
  | _, _, _, _, _, _, _, _ => None
  end.

(** [DataFrame.dropna()]: drop every row that has a missing cell. *)
Fixpoint dropna (d : Frame RawRecord) : Frame (Row year_cell cell cell) :=
  match d with
  | [] => []
  | (i, r) :: tl =>
      match present r with
      | Some c => (i, c) :: dropna tl
      | None => dropna tl
      end
  end.

(** Rounding towards zero. *)
Definition Qtrunc (q : Q) : Z :=
  if Qle_bool 0 q then Qfloor q else Qceiling q.

(** [astype(int)] on one cell: a whole number is itself, a finite float is
    cut towards zero, an infinity raises (pandas' [IntCastingNaNError], a
    [ValueError]), and text is read by [int], which raises [ValueError] on
    text that is no whole number. *)
Definition astype_int (y : year_cell) : result Z :=
  match y with
  | YearNumber (Int z) => Ok z
  | YearNumber (Float q) => Ok (Qtrunc q)
  | YearInf _ => Raise ValueError
  | YearText s =>
      match parse_int s with
      | Some z => Ok z
      | None => Raise ValueError
      end
  end.

Definition number_value (n : number) : Q :=
  match n with
  | Int z => inject_Z z
  | Float q => q
  end.

(** [pd.to_numeric(_, errors='coerce')] on one value; [None] is NaN. *)
Definition to_numeric_coerce (c : cell) : option Q :=
  match c with
  | Number n => Some (number_value n)
  | Text s => parse_number s
  end.

(** [pd.to_numeric(_)] on one value. *)
Definition to_numeric (c : cell) : result Q :=
  match to_numeric_coerce c with
  | Some q => Ok q
  | None => Raise ValueError
  end.

Definition notnull {A : Type} (o : option A) : bool :=
  match o with
  | Some _ => true
  | None => false
  end.

(** Line 15: [df = df[pd.to_numeric(df[column], errors='coerce').notnull()]]. *)
Definition keep_numeric (col : Row Z cell cell -> cell)
  (d : Frame (Row Z cell cell)) : result (Frame (Row Z cell cell)) :=
  loc_bool d (column (fun r => notnull (to_numeric_coerce (col r))) d).

(** Line 11: [df['Year_of_Release'] = df['Year_of_Release'].astype(int)]:
    the whole column is converted, and one cell that cannot be raises. *)
Definition year_astype_int (d : Frame (Row year_cell cell cell))
  : result (Frame (Row Z cell cell)) :=
  rmap (fun ir => y <- astype_int (Year_of_Release (snd ir)) ;;
                  Ok (fst ir, with_Year y (snd ir)))%result d.

(** Line 25: [df['User_Score'] = pd.to_numeric(df['User_Score'])]. *)
Definition user_to_numeric (d : Frame (Row Z cell cell))
  : result (Frame (Row Z cell Q)) :=
  rmap (fun ir => u <- to_numeric (User_Score (snd ir)) ;;
                  Ok (fst ir, with_User u (snd ir)))%result d.

(** Line 26: [df['Critic_Score'] = pd.to_numeric(df['Critic_Score'])]. *)
Definition critic_to_numeric (d : Frame (Row Z cell Q)) : result DataFrame :=
  rmap (fun ir => c <- to_numeric (Critic_Score (snd ir)) ;;
                  Ok (fst ir, with_Critic c (snd ir)))%result d.

(** Lines 9 to 26 on the frame that [pd.read_csv] returned. *)
Definition prepare (raw : Frame RawRecord) : result DataFrame :=
  (let df := dropna raw in
   df <- year_astype_int df ;;
   df <- fold_left (fun acc col => d <- acc ;; keep_numeric col d)
           [@Critic_Score Z cell cell; @User_Score Z cell cell] (Ok df) ;;
   df <- loc_bool df (year_mask df 2000 2022) ;;
   df <- user_to_numeric df ;;
   df <- critic_to_numeric df ;;
   Ok df)%result.

(** Lines 9 to 26: the base table. *)
Definition loader (lines : list RawRecord) : result DataFrame :=
  prepare (read_csv lines).

(** *** The specification's view of the loader (section 4.1) *)

(** Line 11 converts every line that has no missing cell. *)
Definition years_convert (raw : Frame RawRecord) : bool :=
  forallb (fun ir => match present (snd ir) with
                     | Some c => match astype_int (Year_of_Release c) with
                                 | Ok _ => true
                                 | Raise _ => false
                                 end
                     | None => true
                     end) raw.

(** Line 11 can convert the cell: it is a finite number, or text that
    [int] reads. *)
Definition convertible (y : year_cell) : Prop :=
  match y with
  | YearNumber _ => True
  | YearInf _ => False
  | YearText s => parse_int s <> None
  end.

(** Lines 14 to 26 on the frame that line 11 leaves. *)
Definition finish (df : Frame (Row Z cell cell)) : result DataFrame :=
  (df <- fold_left (fun acc col => d <- acc ;; keep_numeric col d)
           [@Critic_Score Z cell cell; @User_Score Z cell cell] (Ok df) ;;
   df <- loc_bool df (year_mask df 2000 2022) ;;
   df <- user_to_numeric df ;;
   df <- critic_to_numeric df ;;
   Ok df)%result.

(** The row of the base table that a converted row becomes when both its
    scores are numeric and its year lies from 2000 to 2022. *)
Definition clean_row (x : Row Z cell cell) : option GameRecord :=
  match to_numeric_coerce (Critic_Score x),
        to_numeric_coerce (User_Score x) with
  | Some cs, Some us =>
      if ((2000 <=? Year_of_Release x) && (Year_of_Release x <=? 2022))%Z
      then Some (with_Critic cs (with_User us x))
      else None
  | _, _ => None
  end.

(** The row a line becomes when it passes the four tests: no missing cell, a
    year that line 11 converts, both scores numeric, and the converted year
    from 2000 to 2022. *)
Definition clean (r : RawRecord) : option GameRecord :=
  match present r with
  | None => None
  | Some c =>
      match astype_int (Year_of_Release c) with
      | Ok y => clean_row (with_Year y c)
      | Raise _ => None
      end
  end.

(** The lines that pass, each as the row it becomes, under its label. *)
Fixpoint cleaned (raw : Frame RawRecord) : DataFrame :=
  match raw with
  | [] => []
  | (i, r) :: tl =>
      match clean r with
      | Some g => (i, g) :: cleaned tl
      | None => cleaned tl
      end
  end.

(** The loader as section 8 of the specification reads it: it returns, every
    row of its table has a year in the window, and a line gives a row exactly
    when it has no missing cell, numeric scores and a year in the window,
    every other line being dropped. *)
Definition drops_without_error (lines : list RawRecord) : Prop :=
  exists base,
    loader lines = Ok base
    /\ forall i r,
         nth_error lines i = Some r ->
         ((exists g, In (i, g) base) <-> clean r <> None).

End Loader.

(** ** Columns of the base table *)

(** [Series.isin(values)] on one value. *)
Definition isin (vals : list string) (x : string) : bool :=
  existsb (String.eqb x) vals.

(** [Series.min()] and [Series.max()] of the year column (lines 35 and 36);
    [None] is the NaN that pandas gives for an empty column. *)
Definition min_year (d : DataFrame) : option Z :=
  match values (column (@Year_of_Release Z Q Q) d) with
  | [] => None
  | y :: ys => Some (fold_left Z.min ys y)
  end.

Definition max_year (d : DataFrame) : option Z :=
  match values (column (@Year_of_Release Z Q Q) d) with
  | [] => None
  | y :: ys => Some (fold_left Z.max ys y)
  end.

(** ** Aggregations *)

(** [Series.unique()]: the distinct values in order of first appearance. *)
Fixpoint unique {A : Type} (eqb : A -> A -> bool) (l : list A) : list A :=
  match l with
  | [] => []
  | x :: tl => x :: filter (fun y => negb (eqb x y)) (unique eqb tl)
  end.

(** A float64 result: not-a-number, an infinity, or a number. *)
Inductive float : Type :=
| NaN
| Inf (negative : bool)
| Fin (q : Q).

Definition Qsum (l : list Q) : Q := fold_left Qplus l (0 # 1)%Q.

(** [Series.mean()] in the arithmetic of the rationals: sum over count, NaN
    for an empty column.  float64 rounds every sum and the quotient, and a
    sum may overflow; [mean] does neither (see [arithmetic] below). *)
Definition mean (l : list Q) : float :=
  match l with
  | [] => NaN
  | _ :: _ => Fin (Qsum l / inject_Z (Z.of_nat (List.length l)))%Q
  end.

(** The integer nearest to [q], ties going to the even one. *)
Definition rint (q : Q) : Z :=
  let f := Qfloor q in
  match Qcompare (q - inject_Z f)%Q (1 # 2)%Q with
  | Lt => f
  | Gt => (f + 1)%Z
  | Eq => if Z.even f then f else (f + 1)%Z
  end.

(** [round(x, ndigits)] on a float64, in the arithmetic of the rationals:
    NaN and the infinities stay, a number is scaled by [10^ndigits], rounded
    to the nearest integer and scaled back.  float64 rounds the product and
    the quotient; [round] does not. *)
Definition round (x : float) (ndigits : nat) : float :=
  match x with
  | NaN => NaN
  | Inf b => Inf b
  | Fin q =>
      let scale := inject_Z (10 ^ Z.of_nat ndigits) in
      Fin (Qred (inject_Z (rint (q * scale)) / scale))%Q
  end.

(** The two numeric operations that lines 223 and 225 call from the
    libraries: [Series.mean()] of pandas, on the values of a column, and
    [round(_, ndigits)] on the float that it returns.  Their float64
    arithmetic belongs to pandas and numpy, not to the program, and is left
    open, as the parsers are; [exact] is the arithmetic without rounding
    errors, which agrees with float64 wherever float64 computes the sums and
    the quotients exactly. *)
Record arithmetic : Type := {
  series_mean : list Q -> float;
  py_round : float -> nat -> float
}.

Definition exact : arithmetic :=
  {| series_mean := mean; py_round := round |}.

(** Insertion into a list sorted by [leb]. *)
Fixpoint insert {A : Type} (leb : A -> A -> bool) (x : A) (l : list A) : list A :=
  match l with
  | [] => [x]
  | y :: tl => if leb x y then x :: l else y :: insert leb x tl
  end.

Definition sort {A : Type} (leb : A -> A -> bool) (l : list A) : list A :=
  fold_right (insert leb) [] l.

Definition count {A : Type} (eqb : A -> A -> bool) (x : A) (l : list A) : nat :=
  List.length (filter (eqb x) l).

(** Order of the group keys [(Platform, Year_of_Release)]. *)
Definition key_leb (a b : string * Z) : bool :=
  if String.eqb (fst a) (fst b) then (snd a <=? snd b)%Z
  else String.leb (fst a) (fst b).

Definition key_eqb (a b : string * Z) : bool :=
  String.eqb (fst a) (fst b) && (snd a =? snd b)%Z.

Definition platform_year (r : GameRecord) : string * Z :=
  (Platform r, Year_of_Release r).

(** Line 184: [groupby(['Platform','Year_of_Release']).count().reset_index()],
    one line per group in the order of the keys; no cell is missing, so every
    counted column, [Name] among them, holds the size of the group. *)
Definition groupby_count (d : DataFrame) : list (string * Z * nat) :=
  let keys := map platform_year (values d) in
  map (fun k => (fst k, snd k, count key_eqb k keys))
      (sort key_leb (unique key_eqb keys)).

(** [Series.mode()]: the values with the greatest number of occurrences,
    sorted. *)
Definition mode (l : list string) : list string :=
  let u := unique String.eqb l in
  let top := fold_right Nat.max 0 (map (fun x => count String.eqb x l) u) in
  sort String.leb (filter (fun x => Nat.eqb (count String.eqb x l) top) u).

(** What one group contributes to the aggregated column. *)
Inductive aggregated : Type :=
| Scalar (s : string)
| Array (l : list string).

(** pandas' [extract_result]: the Series a function returned for a group is
    replaced by its only value when it has exactly one, and by the array of
    its values otherwise. *)
Definition extract_result (m : list string) : aggregated :=
  match m with
  | [x] => Scalar x
  | _ => Array m
  end.

(** The [Rating] column of the group of genre [g]. *)
Definition ratings_of (g : string) (d : DataFrame) : list string :=
  map (@Rating Z Q Q) (filter (fun r => String.eqb (Genre r) g) (values d)).

(** Line 209: [groupby(['Genre'])['Rating'].agg(pd.Series.mode).reset_index()],
    one line per genre of the frame, in the order of the genres. *)
Definition groupby_mode (d : DataFrame) : list (string * aggregated) :=
  map (fun g => (g, extract_result (mode (ratings_of g d))))
      (sort String.leb (unique String.eqb (map (@Genre Z Q Q) (values d)))).

(** ** The interpreter state

    Frames are objects: a variable holds a reference, and two variables may
    hold the same one.  The state is the list of the frames allocated so far
    (a reference is a position in it) and the binding of the module-level
    name [df]. *)

Definition ref := nat.

Record state : Type := {
  objects : list DataFrame;
  df : option ref
}.

(** A Python computation: it ends in a value or in an exception, and leaves a
    state behind in both cases. *)
Definition Py (A : Type) : Type := state -> result A * state.

Definition ret {A : Type} (a : A) : Py A := fun s => (Ok a, s).

Definition bind {A B : Type} (c : Py A) (k : A -> Py B) : Py B :=
  fun s =>
    match c s with
    | (Ok a, s') => k a s'
    | (Raise e, s') => (Raise e, s')
    end.

Definition lift {A : Type} (r : result A) : Py A := fun s => (r, s).

Declare Scope py_scope.
Delimit Scope py_scope with py.
Notation "x <- c ;; k" := (bind c (fun x => k))
  (at level 61, c at next level, right associativity) : py_scope.

(** A new object. *)
Definition new (d : DataFrame) : Py ref :=
  fun s => (Ok (List.length (objects s)),
            {| objects := objects s ++ [d]; df := df s |}).

(** The frame a reference points to. *)
Definition deref (r : ref) : Py DataFrame :=
  fun s =>
    match nth_error (objects s) r with
    | Some d => (Ok d, s)
    | None => (Raise NameError, s)
    end.

(** Reading the module-level name [df]. *)
Definition global_df : Py ref :=
  fun s =>
    match df s with
    | Some r => (Ok r, s)
    | None => (Raise NameError, s)
    end.

(** Binding the module-level name [df] (the module body does it, line 9 on). *)
Definition bind_global_df (r : ref) : Py unit :=
  fun s => (Ok tt, {| objects := objects s; df := Some r |}).

(** [d.copy()]. *)
Definition copy (r : ref) : Py ref :=
  (d <- deref r ;; new d)%py.

(** [d[col].isin(vals)]. *)
Definition col_isin (r : ref) (col : GameRecord -> string) (vals : list string)
  : Py (Series bool) :=
  (d <- deref r ;; ret (column (fun x => isin vals (col x)) d))%py.

(** [d.loc[key]]: a new frame. *)
Definition loc (r : ref) (key : Series bool) : Py ref :=
  (d <- deref r ;; d' <- lift (loc_bool d key) ;; new d')%py.

(** [l[i]] on a Python list. *)
Definition getitem (l : list Z) (i : nat) : Py Z :=
  match nth_error l i with
  | Some z => ret z
  | None => lift (Raise IndexError)
  end.

Definition len {A : Type} (l : list A) : nat := List.length l.

(** ** The callback (lines 170 to 229) *)

(** The three numbers and the data of the three figures. *)
Record outputs : Type := {
  count_games : nat;
  avg_players : float;
  avg_critics : float;
  stacked_by_year : list (string * Z * nat);
  scatter_by_genre : list (Q * Q * string);
  graph_critics_by_genre : list (string * aggregated)
}.

(** Lines 171 to 183: the reference [local_df] holds when the filters are
    done. *)
Definition filter_rows (platforms genres : list string) (years : list Z)
  : Py ref :=
  (g <- global_df ;;
   local_df <- copy g ;;
   local_df <-
     (if negb (len platforms =? 0)
      then key <- col_isin local_df (@Platform Z Q Q) platforms ;;
           loc local_df key
      else ret local_df) ;;
   local_df <-
     (if negb (len genres =? 0)
      then key <- col_isin local_df (@Genre Z Q Q) genres ;;
           loc local_df key
      else ret local_df) ;;
   local_df <-
     (if negb (len years =? 0)
      then g <- global_df ;;
           base <- deref g ;;
           lo <- getitem years 0 ;;
           hi <- getitem years 1 ;;
           loc local_df (year_mask base lo hi)
      else ret local_df) ;;
   ret local_df)%py.

(** Lines 184 to 229 on the frame that [local_df] holds, with the
    arithmetic [a] for the two means. *)
Definition aggregate_with (a : arithmetic) (d : DataFrame) : outputs :=
  let rows := values d in
  {| count_games := len (unique String.eqb (map (@Name Z Q Q) rows));
     avg_players :=
       py_round a (series_mean a (map (@User_Score Z Q Q) rows)) 2;
     avg_critics :=
       py_round a (series_mean a (map (@Critic_Score Z Q Q) rows)) 2;
     stacked_by_year := groupby_count d;
     scatter_by_genre :=
       map (fun r => (User_Score r, Critic_Score r, Genre r)) rows;
     graph_critics_by_genre := groupby_mode d |}.

Definition callback_with (a : arithmetic) (platforms genres : list string)
  (years : list Z) : Py outputs :=
  (local_df <- filter_rows platforms genres years ;;
   d <- deref local_df ;;
   ret (aggregate_with a d))%py.

(** The same in the arithmetic without rounding errors. *)
Definition aggregate (d : DataFrame) : outputs := aggregate_with exact d.

Definition callback (platforms genres : list string) (years : list Z)
  : Py outputs :=
  callback_with exact platforms genres years.

(** The state in which the module body leaves the interpreter when the loader
    has produced [base]: one object, bound to [df]. *)
Definition boot (base : DataFrame) : state :=
  {| objects := [base]; df := Some 0 |}.

(** The callback as a function of the base table and the selection. *)
Definition engine_with (a : arithmetic) (base : DataFrame)
  (platforms genres : list string) (years : list Z) : result outputs :=
  fst (callback_with a platforms genres years (boot base)).

Definition engine (base : DataFrame) (platforms genres : list string)
  (years : list Z) : result outputs :=
  fst (callback platforms genres years (boot base)).

(** The frame [local_df] of the callback, as a function of the same. *)
Definition filtered (base : DataFrame) (platforms genres : list string)
  (years : list Z) : result DataFrame :=
  fst ((local_df <- filter_rows platforms genres years ;; deref local_df)%py
         (boot base)).

(** ** The specification's view of the filters (section 4.2, steps 2 to 4) *)

Definition within {C U : Type} (lo hi : Z) (r : Row Z C U) : bool :=
  ((lo <=? Year_of_Release r) && (Year_of_Release r <=? hi))%Z.

(** Step 2: a non-empty platform selection keeps the rows whose platform is
    selected; an empty one keeps every row. *)
Definition restrict_platform (platforms : list string) (d : DataFrame)
  : DataFrame :=
  match platforms with
  | [] => d
  | _ :: _ => filter (fun ir => isin platforms (Platform (snd ir))) d
  end.

(** Step 3: the same for genres. *)
Definition restrict_genre (genres : list string) (d : DataFrame) : DataFrame :=
  match genres with
  | [] => d
  | _ :: _ => filter (fun ir => isin genres (Genre (snd ir))) d
  end.

(** Step 4: the rows of [d] whose year lies in [[lo, hi]]. *)
Definition restrict_year (lo hi : Z) (d : DataFrame) : DataFrame :=
  filter (fun ir => within lo hi (snd ir)) d.

(** The labels of a frame are pairwise distinct. *)
Definition unique_index {R : Type} (d : Frame R) : Prop := NoDup (index d).

(** ** The callback without the store

    What the callback computes from the frame that [df] holds, written
    without references; [filter_rows_select] and [callback_engine] below
    show that the callback computes exactly this in every state. *)

Definition select (base : DataFrame) (platforms genres : list string)
  (years : list Z) : result DataFrame :=
  (d <- (if negb (len platforms =? 0)
         then loc_bool base (column (fun x => isin platforms (Platform x)) base)
         else Ok base) ;;
   d <- (if negb (len genres =? 0)
         then loc_bool d (column (fun x => isin genres (Genre x)) d)
         else Ok d) ;;
   d <- (if negb (len years =? 0)
         then match nth_error years 0, nth_error years 1 with
              | Some lo, Some hi => loc_bool d (year_mask base lo hi)
              | _, _ => Raise IndexError
              end
         else Ok d) ;;
   Ok d)%result.

(** [s'] has the objects of [s] unchanged, possibly more, and the same
    binding of [df]. *)
Definition extends (s s' : state) : Prop :=
  df s' = df s /\ exists more, objects s' = objects s ++ more.

(** Reference [r] points to frame [d] in state [s]. *)
Definition holds (s : state) (r : ref) (d : DataFrame) : Prop :=
  nth_error (objects s) r = Some d.

(** The frame that the name [df] denotes in state [s]. *)
Definition base_table (s : state) : option DataFrame :=
  match df s with
  | Some r => nth_error (objects s) r
  | None => None
  end.

(** Run from [s], the computation [c] ends as [o] says: with a reference to
    the frame [o] carries, or with the exception [o] carries; the state it
    leaves extends [s]. *)
Definition agrees (c : Py ref) (s : state) (o : result DataFrame) : Prop :=
  exists s', extends s s' /\
    match o with
    | Ok d => exists r, c s = (Ok r, s') /\ holds s' r d
    | Raise e => c s = (Raise e, s')
    end.

(** Lines 9 to 26 of the module body as a computation: the loader's table
    becomes an object, bound to [df]; when the loader raises, so does the
    import of the module. *)
Definition module_body (parse_number : string -> option Q)
  (parse_int : string -> option Z) (lines : list RawRecord) : Py unit :=
  (d <- lift (loader parse_number parse_int lines) ;;
   r <- new d ;;
   bind_global_df r)%py.

Definition empty_state : state := {| objects := []; df := None |}.

(** One user interaction: the callback runs on some selection, and ends
    normally or with an exception. *)
Inductive interaction (s : state) : state -> Prop :=
| interaction_intro (platforms genres : list string) (years : list Z) :
    interaction s (snd (callback platforms genres years s)).

(** The states the process goes through after the module body has made
    [base] the base table: any number of interactions from [boot base]. *)
Inductive reachable (base : DataFrame) : state -> Prop :=
| reachable_boot : reachable base (boot base)
| reachable_step (s s' : state) :
    reachable base s -> interaction s s' -> reachable base s'.

(** A row passes the three filters of a selection. *)
Definition selected (platforms genres : list string) (lo hi : Z)
  (r : GameRecord) : bool :=
  match platforms with [] => true | _ :: _ => isin platforms (Platform r) end
  && match genres with [] => true | _ :: _ => isin genres (Genre r) end
  && within lo hi r.

(** ** The specification's view of the scalar outputs (section 4.2, step 5) *)


(** ** The specification's view of the mode (glossary) *)

Definition occurrences (x : string) (l : list string) : nat :=
  count String.eqb x l.

(** [x] occurs in [l] and nothing occurs more often. *)
Definition most_frequent (l : list string) (x : string) : Prop :=
  In x l /\ forall y, In y l -> occurrences y l <= occurrences x l.

(** [x] occurs in [l] more often than every other value. *)
Definition single_most_frequent (l : list string) (x : string) : Prop :=
  In x l /\ forall y, In y l -> y <> x -> occurrences y l < occurrences x l.

(** The per-genre table as the glossary reads it: every genre of the filtered
    frame is mapped to the one rating that is most frequent in its group. *)
Definition maps_genres_to_single_mode (base : DataFrame)
  (platforms genres : list string) (lo hi : Z) : Prop :=
  forall sub out,
    filtered base platforms genres [lo; hi] = Ok sub ->
    engine base platforms genres [lo; hi] = Ok out ->
    forall g, In g (map (@Genre Z Q Q) (values sub)) ->
      exists x, In (g, Scalar x) (graph_critics_by_genre out)
                /\ single_most_frequent (ratings_of g sub) x.

Definition string_le (a b : string) : Prop := String.leb a b = true.

(** ** Sample tables *)

Definition game (n p : string) (y : Z) (g : string) (c u : Q) (t : string)
  : GameRecord :=
  {| Name := n; Platform := p; Year_of_Release := y; Genre := g;
     Critic_Score := c; User_Score := u; Rating := t; Other := [] |}.

(** The two rows of the example of section 8, which leaves their ratings
    open. *)
Definition two_games (rating_a rating_b : string) : DataFrame :=
  [ (0, game "A" "PS4" 2010 "Action" (80 # 1) (15 # 2) rating_a);
    (1, game "B" "PC" 2015 "RPG" (90 # 1) (8 # 1) rating_b) ].

(** Two games of one genre with different ratings. *)
Definition tied_games : DataFrame :=
  [ (0, game "A" "PS4" 2010 "Action" (80 # 1) (15 # 2) "T");
    (1, game "B" "PC" 2015 "Action" (90 # 1) (8 # 1) "E") ].

(** A reading of text cells that knows two numbers, for the examples. *)
Definition sample_parse (s : string) : option Q :=
  if String.eqb s "7.5" then Some (15 # 2)%Q
  else if String.eqb s "8" then Some (8 # 1)%Q
  else None.

(** A reading of text as whole numbers that knows one numeral. *)
Definition sample_int (s : string) : option Z :=
  if String.eqb s "2016" then Some 2016%Z else None.

Definition line (n p : string) (y : option number) (g : string)
  (c u : option cell) (t : option string) : RawRecord :=
  {| raw_Name := Some n; raw_Platform := Some p;
     raw_Year_of_Release := option_map YearNumber y;
     raw_Genre := Some g; raw_Critic_Score := c; raw_User_Score := u;
     raw_Rating := t; raw_Other := [] |}.

(** A line with every cell whose year is infinite. *)
Definition infinite_year_line : RawRecord :=
  {| raw_Name := Some "F"; raw_Platform := Some "PC";
     raw_Year_of_Release := Some (YearInf false); raw_Genre := Some "RPG";
     raw_Critic_Score := Some (Number (Float (70 # 1)));
     raw_User_Score := Some (Text "8"); raw_Rating := Some "T";
     raw_Other := [] |}.

(** A line with every cell whose year is text that is no whole number. *)
Definition text_year_line : RawRecord :=
  {| raw_Name := Some "G"; raw_Platform := Some "PC";
     raw_Year_of_Release := Some (YearText "unknown"); raw_Genre := Some "RPG";
     raw_Critic_Score := Some (Number (Float (70 # 1)));
     raw_User_Score := Some (Text "8"); raw_Rating := Some "T";
     raw_Other := [] |}.

(** Five lines: one that passes, one with a user score that is no number,
    one from before 2000, one without rating, one more that passes. *)
Definition sample_lines : list RawRecord :=
  [ line "A" "PS4" (Some (Float (2010 # 1))) "Action"
      (Some (Number (Float (80 # 1)))) (Some (Text "7.5")) (Some "E");
    line "C" "Wii" (Some (Float (2011 # 1))) "Sports"
      (Some (Number (Float (70 # 1)))) (Some (Text "tbd")) (Some "E");
    line "D" "PS" (Some (Float (1999 # 1))) "Racing"
      (Some (Number (Float (75 # 1)))) (Some (Text "8")) (Some "E");
    line "E" "PC" (Some (Float (2012 # 1))) "Puzzle"
      (Some (Number (Float (60 # 1)))) (Some (Text "8")) None;
    line "B" "PC" (Some (Float (4031 # 2))) "RPG"
      (Some (Number (Float (90 # 1)))) (Some (Text "8")) (Some "T") ].

(** ** The data of the layout (lines 35 to 93) *)

(** Line 54: the options of the platform dropdown,
    [df['Platform'].unique().tolist()]. *)
Definition platform_options (d : DataFrame) : list string :=
  unique String.eqb (map (@Platform Z Q Q) (values d)).

(** Line 66: the options of the genre dropdown. *)
Definition genre_options (d : DataFrame) : list string :=
  unique String.eqb (map (@Genre Z Q Q) (values d)).

(** ['{}'.format(i)] on an integer: its decimal numeral. *)
Definition format_int (z : Z) : string :=
  NilZero.string_of_int (Z.to_int z).

(** Lines 83 to 85: the marks of the slider, one entry per distinct year of
    the table, [{i: '{}'.format(i) for i in ...unique().tolist()}]. *)
Definition slider_marks (d : DataFrame) : list (Z * string) :=
  map (fun y => (y, format_int y))
      (unique Z.eqb (map (@Year_of_Release Z Q Q) (values d))).

(** The number of rows of [d] with platform [p] and year [y]. *)
Definition rows_of_group (p : string) (y : Z) (d : DataFrame) : nat :=
  List.length
    (filter (fun ir => String.eqb (Platform (snd ir)) p
                       && (Year_of_Release (snd ir) =? y)%Z) d).

(** Strict order of the group keys: by platform, then by year. *)
Definition key_lt (a b : string * Z) : Prop :=
  key_leb a b = true /\ a <> b.

Definition string_lt (a b : string) : Prop :=
  String.leb a b = true /\ a <> b.

(** The selection [b] admits at least the values that [a] admits: [b] is
    empty, which admits every value, or [a] is not empty and [b] has its
    members. *)
Definition wider (a b : list string) : Prop :=
  b = [] \/ (a <> [] /\ incl a b).

(** * Facts *)

(** ** Selection by a boolean series *)

Lemma index_column {R A : Type} (f : R -> A) (d : Frame R) :
  index (column f d) = index d.
Proof.
  unfold index, column. rewrite map_map. reflexivity.
Qed.

Lemma values_column {R A : Type} (f : R -> A) (d : Frame R) :
  values (column f d) = map (fun ir => f (snd ir)) d.
Proof.
  unfold values, column. rewrite map_map. reflexivity.
Qed.

Lemma index_equals_refl (a : list label) : index_equals a a = true.
Proof.
  unfold index_equals. destruct (list_eq_dec Nat.eq_dec a a); congruence.
Qed.

Lemma index_equals_true (a b : list label) : index_equals a b = true -> a = b.
Proof.
  unfold index_equals. destruct (list_eq_dec Nat.eq_dec a b); congruence.
Qed.

Lemma take_mask_filter {R : Type} (p : label * R -> bool) (d : Frame R) :
  take_mask d (map p d) = filter p d.
Proof.
  induction d as [|x d IH]; simpl; [reflexivity|].
  rewrite IH. reflexivity.
Qed.

(** A mask computed on the frame itself selects by position. *)
Lemma loc_bool_column {R : Type} (p : R -> bool) (d : Frame R) :
  loc_bool d (column p d) = Ok (filter (fun ir => p (snd ir)) d).
Proof.
  unfold loc_bool, check_bool_indexer.
  rewrite index_column, index_equals_refl. simpl.
  rewrite values_column, take_mask_filter. reflexivity.
Qed.

Lemma in_index {R : Type} (i : label) (r : R) (d : Frame R) :
  In (i, r) d -> In i (index d).
Proof.
  intros H. unfold index. change i with (fst (i, r)). now apply in_map.
Qed.

(** With distinct labels, the key computed on [base] holds at the label of a
    row of [base] the value computed from that row. *)
Lemma lookup_column {R : Type} (p : R -> bool) (base : Frame R) i r :
  unique_index base -> In (i, r) base ->
  lookup i (column p base) = Some (p r).
Proof.
  unfold unique_index.
  induction base as [|[j x] base IH]; simpl; intros Hnd Hin; [contradiction|].
  inversion Hnd as [|? ? Hnotin Hnd']; subst.
  destruct Hin as [Heq | Hin].
  - inversion Heq; subst. now rewrite Nat.eqb_refl.
  - destruct (Nat.eqb_spec i j) as [-> | _].
    + exfalso. apply Hnotin. eapply in_index; eauto.
    + now apply IH.
Qed.

(** A frame that has the labels of [base], in the same order, and only rows
    of [base], is [base]. *)
Lemma same_index_same_frame {R : Type} (base sub : Frame R) :
  unique_index base -> incl sub base -> index sub = index base -> sub = base.
Proof.
  unfold unique_index. revert sub.
  induction base as [|[j x] base IH]; intros [|[i r] sub] Hnd Hincl Hidx;
    simpl in *; try discriminate; [reflexivity|].
  inversion Hidx; subst. inversion Hnd as [|? ? Hnotin Hnd']; subst.
  assert (Hr : r = x).
  { destruct (Hincl (j, r) (or_introl eq_refl)) as [E | Hin].
    - now inversion E.
    - exfalso. apply Hnotin. eapply in_index; eauto. }
  subst r. f_equal. apply IH; auto.
  intros [k y] Hk.
  destruct (Hincl (k, y) (or_intror Hk)) as [E | Hin]; [|exact Hin].
  inversion E; subst. exfalso. apply Hnotin.
  match goal with H : index sub = index base |- _ => rewrite <- H end.
  eapply in_index; eauto.
Qed.

Lemma rmap_lookup_column {R : Type} (p : R -> bool) (base sub : Frame R) :
  unique_index base -> incl sub base ->
  rmap (fun ir => match lookup (fst ir) (column p base) with
                  | Some b => Ok b
                  | None => Raise IndexingError
                  end) sub
  = Ok (map (fun ir => p (snd ir)) sub).
Proof.
  intros Hnd. induction sub as [|[i r] sub IH]; intros Hincl; simpl.
  - reflexivity.
  - rewrite (@lookup_column R p base i r Hnd (Hincl _ (or_introl eq_refl))).
    simpl. rewrite IH; [reflexivity|].
    intros y Hy. apply Hincl. now right.
Qed.

(** A mask computed on [base] and applied to a part of [base] selects the
    rows of the part that satisfy the test: the labels carry the mask over. *)
Lemma loc_bool_aligned {R : Type} (p : R -> bool) (base sub : Frame R) :
  unique_index base -> incl sub base ->
  loc_bool sub (column p base) = Ok (filter (fun ir => p (snd ir)) sub).
Proof.
  intros Hnd Hincl. unfold loc_bool, check_bool_indexer.
  destruct (index_equals (index (column p base)) (index sub)) eqn:E.
  - apply index_equals_true in E. rewrite index_column in E.
    rewrite (@same_index_same_frame R base sub Hnd Hincl (eq_sym E)).
    simpl. rewrite values_column, take_mask_filter. reflexivity.
  - rewrite rmap_lookup_column by assumption.
    simpl. rewrite take_mask_filter. reflexivity.
Qed.

Lemma year_mask_column {C U : Type} (d : Frame (Row Z C U)) (lo hi : Z) :
  year_mask d lo hi = column (within lo hi) d.
Proof.
  unfold year_mask, series_and, column, within, year_ge, year_le.
  induction d as [|[i r] d IH]; simpl; [reflexivity|].
  rewrite IH. reflexivity.
Qed.

(** ** The store *)

Lemma extends_refl (s : state) : extends s s.
Proof.
  split; [reflexivity|]. exists []. now rewrite app_nil_r.
Qed.

Lemma extends_trans (s1 s2 s3 : state) :
  extends s1 s2 -> extends s2 s3 -> extends s1 s3.
Proof.
  intros [H1 [m1 E1]] [H2 [m2 E2]]. split; [congruence|].
  exists (m1 ++ m2). rewrite E2, E1. now rewrite app_assoc.
Qed.

Lemma extends_holds (s s' : state) r d :
  extends s s' -> holds s r d -> holds s' r d.
Proof.
  unfold holds. intros [_ [m E]] H. rewrite E.
  rewrite nth_error_app1; [exact H|].
  apply nth_error_Some. congruence.
Qed.

Lemma extends_base_table (s s' : state) d :
  extends s s' -> base_table s = Some d -> base_table s' = Some d.
Proof.
  unfold base_table. intros He H. rewrite (proj1 He).
  destruct (df s) as [r|]; [|discriminate].
  exact (extends_holds He H).
Qed.

Lemma new_extends (d : DataFrame) (s : state) : extends s (snd (new d s)).
Proof.
  split; [reflexivity|]. now exists [d].
Qed.

Lemma new_holds (d : DataFrame) (s : state) :
  holds (snd (new d s)) (List.length (objects s)) d.
Proof.
  unfold holds. simpl. rewrite nth_error_app2 by lia.
  now rewrite Nat.sub_diag.
Qed.

Lemma deref_holds (s : state) r d : holds s r d -> deref r s = (Ok d, s).
Proof.
  unfold holds, deref. now intros ->.
Qed.

Lemma bind_ok {A B : Type} (c : Py A) (k : A -> Py B) s a s' :
  c s = (Ok a, s') -> bind c k s = k a s'.
Proof.
  unfold bind. now intros ->.
Qed.

Lemma bind_raise {A B : Type} (c : Py A) (k : A -> Py B) s e s' :
  c s = (Raise e, s') -> bind c k s = (Raise e, s').
Proof.
  unfold bind. now intros ->.
Qed.

(** Sequencing: when [c] ends as [o] says and the rest, started on a
    reference to the frame of [o], ends as [f] says, then the whole ends as
    [rbind o f] says. *)
Lemma agrees_bind (c : Py ref) (k : ref -> Py ref) (s : state)
  (o : result DataFrame) (f : DataFrame -> result DataFrame) :
  agrees c s o ->
  (forall r s' d, extends s s' -> holds s' r d -> agrees (k r) s' (f d)) ->
  agrees (bind c k) s (rbind o f).
Proof.
  intros [s1 [He Hc]] Hk. destruct o as [d|e]; simpl.
  - destruct Hc as [r [Hc Hr]].
    destruct (Hk r s1 d He Hr) as [s2 [He2 Hk2]].
    exists s2. split; [eapply extends_trans; eauto|].
    rewrite (bind_ok _ _ _ Hc). exact Hk2.
  - exists s1. split; [exact He|]. now apply bind_raise.
Qed.

Lemma agrees_ret (s : state) r d : holds s r d -> agrees (ret r) s (Ok d).
Proof.
  intros H. exists s. split; [apply extends_refl|].
  exists r. split; [reflexivity | exact H].
Qed.

Lemma agrees_copy (s : state) r d : holds s r d -> agrees (copy r) s (Ok d).
Proof.
  intros H. exists (snd (new d s)). split; [apply new_extends|].
  exists (List.length (objects s)). split; [|apply new_holds].
  unfold copy. rewrite (bind_ok _ _ _ (deref_holds H)). reflexivity.
Qed.

Lemma agrees_loc (s : state) r d (key : Series bool) :
  holds s r d -> agrees (loc r key) s (loc_bool d key).
Proof.
  intros H. unfold loc. destruct (loc_bool d key) as [d'|e] eqn:E.
  - exists (snd (new d' s)). split; [apply new_extends|].
    exists (List.length (objects s)). split; [|apply new_holds].
    rewrite (bind_ok _ _ _ (deref_holds H)). unfold lift, bind. now rewrite E.
  - exists s. split; [apply extends_refl|].
    rewrite (bind_ok _ _ _ (deref_holds H)). unfold lift, bind. now rewrite E.
Qed.

Lemma agrees_isin_loc (s : state) r d (col : GameRecord -> string) vals :
  holds s r d ->
  agrees (bind (col_isin r col vals) (fun key => loc r key)) s
         (loc_bool d (column (fun x => isin vals (col x)) d)).
Proof.
  intros H.
  assert (E : col_isin r col vals s
              = (Ok (column (fun x => isin vals (col x)) d), s)).
  { unfold col_isin. now rewrite (bind_ok _ _ _ (deref_holds H)). }
  destruct (@agrees_loc s r d (column (fun x => isin vals (col x)) d) H)
    as [s' [He Hl]].
  exists s'. split; [exact He|]. rewrite (bind_ok _ _ _ E). exact Hl.
Qed.

Lemma agrees_year_step (s : state) g base r d (years : list Z) :
  df s = Some g -> holds s g base -> holds s r d ->
  agrees (g <- global_df ;; base <- deref g ;; lo <- getitem years 0 ;;
          hi <- getitem years 1 ;; loc r (year_mask base lo hi))%py s
         (match nth_error years 0, nth_error years 1 with
          | Some lo, Some hi => loc_bool d (year_mask base lo hi)
          | _, _ => Raise IndexError
          end).
Proof.
  intros Hdf Hg Hr.
  assert (Eg : global_df s = (Ok g, s)) by (unfold global_df; now rewrite Hdf).
  unfold agrees.
  rewrite (bind_ok _ _ _ Eg), (bind_ok _ _ _ (deref_holds Hg)).
  unfold getitem.
  destruct (nth_error years 0) as [lo|].
  - destruct (nth_error years 1) as [hi|].
    + exact (agrees_loc (year_mask base lo hi) Hr).
    + exists s. split; [apply extends_refl | reflexivity].
  - exists s. split; [apply extends_refl | reflexivity].
Qed.

Lemma agrees_ext (c c' : Py ref) (s : state) (o : result DataFrame) :
  c s = c' s -> agrees c' s o -> agrees c s o.
Proof.
  unfold agrees. now intros ->.
Qed.

(** Lines 171 to 183, run in any state in which [df] denotes [base], end as
    [select base] says and only add objects to the state. *)
Lemma filter_rows_select (s : state) g base platforms genres years :
  df s = Some g -> holds s g base ->
  agrees (filter_rows platforms genres years) s
         (select base platforms genres years).
Proof.
  intros Hdf Hg. unfold filter_rows.
  eapply agrees_ext.
  { apply bind_ok. unfold global_df. rewrite Hdf. reflexivity. }
  unfold select.
  change (agrees
    (bind (copy g) (fun local_df =>
       bind (if negb (len platforms =? 0)
             then bind (col_isin local_df (@Platform Z Q Q) platforms)
                       (fun key => loc local_df key)
             else ret local_df) (fun local_df =>
       bind (if negb (len genres =? 0)
             then bind (col_isin local_df (@Genre Z Q Q) genres)
                       (fun key => loc local_df key)
             else ret local_df) (fun local_df =>
       bind (if negb (len years =? 0)
             then (g <- global_df ;; base <- deref g ;;
                   lo <- getitem years 0 ;; hi <- getitem years 1 ;;
                   loc local_df (year_mask base lo hi))%py
             else ret local_df) (fun local_df => ret local_df))))) s
    (rbind (Ok base) (fun d =>
       rbind (if negb (len platforms =? 0)
              then loc_bool d (column (fun x => isin platforms (Platform x)) d)
              else Ok d) (fun d =>
       rbind (if negb (len genres =? 0)
              then loc_bool d (column (fun x => isin genres (Genre x)) d)
              else Ok d) (fun d =>
       rbind (if negb (len years =? 0)
              then match nth_error years 0, nth_error years 1 with
                   | Some lo, Some hi => loc_bool d (year_mask base lo hi)
                   | _, _ => Raise IndexError
                   end
              else Ok d) (fun d => Ok d)))))).
  apply agrees_bind; [now apply agrees_copy|].
  intros r1 s1 d1 He1 H1.
  apply agrees_bind.
  { destruct (negb (len platforms =? 0));
      [now apply agrees_isin_loc | now apply agrees_ret]. }
  intros r2 s2 d2 He2 H2.
  apply agrees_bind.
  { destruct (negb (len genres =? 0));
      [now apply agrees_isin_loc | now apply agrees_ret]. }
  intros r3 s3 d3 He3 H3.
  assert (He : extends s s3)
    by (eapply extends_trans; [|exact He3]; eapply extends_trans; eauto).
  apply agrees_bind.
  { destruct (negb (len years =? 0)); [|now apply agrees_ret].
    apply agrees_year_step with (g := g); [| |exact H3].
    - rewrite (proj1 He). exact Hdf.
    - exact (extends_holds He Hg). }
  intros r4 s4 d4 He4 H4. now apply agrees_ret.
Qed.

Lemma holds_boot (base : DataFrame) : holds (boot base) 0 base.
Proof. reflexivity. Qed.

(** The frame [local_df] of the callback is [select] of the base table. *)
Lemma filtered_select (base : DataFrame) platforms genres years :
  filtered base platforms genres years = select base platforms genres years.
Proof.
  unfold filtered.
  destruct (@filter_rows_select (boot base) 0 base platforms genres years
              eq_refl (holds_boot base)) as [s' [He H]].
  destruct (select base platforms genres years) as [d|e].
  - destruct H as [r [Hrun Hr]].
    rewrite (bind_ok _ _ _ Hrun), (deref_holds Hr). reflexivity.
  - rewrite (bind_raise _ _ _ H). reflexivity.
Qed.

(** In every state in which [df] denotes [base], the callback returns what
    [select] and [aggregate] give on [base], and only adds objects. *)
Lemma callback_with_run (a : arithmetic) (s : state) g base
  platforms genres years :
  df s = Some g -> holds s g base ->
  fst (callback_with a platforms genres years s)
  = rbind (select base platforms genres years)
          (fun d => Ok (aggregate_with a d))
  /\ extends s (snd (callback_with a platforms genres years s)).
Proof.
  intros Hdf Hg. unfold callback_with.
  destruct (@filter_rows_select s g base platforms genres years Hdf Hg)
    as [s' [He H]].
  destruct (select base platforms genres years) as [d|e]; simpl.
  - destruct H as [r [Hrun Hr]].
    rewrite (bind_ok _ _ _ Hrun), (bind_ok _ _ _ (deref_holds Hr)).
    simpl. split; [reflexivity | exact He].
  - rewrite (bind_raise _ _ _ H). simpl. split; [reflexivity | exact He].
Qed.

Lemma callback_run (s : state) g base platforms genres years :
  df s = Some g -> holds s g base ->
  fst (callback platforms genres years s)
  = rbind (select base platforms genres years) (fun d => Ok (aggregate d))
  /\ extends s (snd (callback platforms genres years s)).
Proof.
  exact (@callback_with_run exact s g base platforms genres years).
Qed.

Lemma engine_with_filtered (a : arithmetic) (base : DataFrame)
  platforms genres years :
  engine_with a base platforms genres years
  = rbind (filtered base platforms genres years)
          (fun d => Ok (aggregate_with a d)).
Proof.
  unfold engine_with. rewrite filtered_select.
  exact (proj1 (@callback_with_run a (boot base) 0 base platforms genres years
                  eq_refl (holds_boot base))).
Qed.

Lemma engine_select (base : DataFrame) platforms genres years :
  engine base platforms genres years
  = rbind (select base platforms genres years) (fun d => Ok (aggregate d)).
Proof.
  unfold engine.
  exact (proj1 (@callback_run (boot base) 0 base platforms genres years
                  eq_refl (holds_boot base))).
Qed.

Lemma engine_filtered (base : DataFrame) platforms genres years :
  engine base platforms genres years
  = rbind (filtered base platforms genres years) (fun d => Ok (aggregate d)).
Proof.
  rewrite engine_select, filtered_select. reflexivity.
Qed.

(** ** The filters on a table with distinct labels *)

Lemma len_zero {A : Type} (l : list A) :
  negb (len l =? 0) = match l with [] => false | _ :: _ => true end.
Proof. now destruct l. Qed.

Lemma incl_restrict_platform platforms (d : DataFrame) :
  incl (restrict_platform platforms d) d.
Proof.
  destruct platforms; simpl; [apply incl_refl | apply incl_filter].
Qed.

Lemma incl_restrict_genre genres (d : DataFrame) :
  incl (restrict_genre genres d) d.
Proof.
  destruct genres; simpl; [apply incl_refl | apply incl_filter].
Qed.

(** With no year range, [select] is steps 2 and 3 of the specification. *)
Lemma select_no_years (base : DataFrame) platforms genres :
  select base platforms genres []
  = Ok (restrict_genre genres (restrict_platform platforms base)).
Proof.
  unfold select. rewrite !len_zero.
  destruct platforms as [|p ps]; destruct genres as [|g gs]; simpl;
    rewrite ?loc_bool_column; simpl; rewrite ?loc_bool_column; reflexivity.
Qed.

(** With a year range and distinct labels, [select] is steps 2, 3 and 4. *)
Lemma select_years (base : DataFrame) platforms genres lo hi :
  unique_index base ->
  select base platforms genres [lo; hi]
  = Ok (restrict_year lo hi
          (restrict_genre genres (restrict_platform platforms base))).
Proof.
  intros Hnd.
  assert (Hy : forall sub, incl sub base ->
                 loc_bool sub (year_mask base lo hi)
                 = Ok (restrict_year lo hi sub)).
  { intros sub Hs. rewrite year_mask_column.
    now apply loc_bool_aligned. }
  assert (Hi : incl (restrict_genre genres (restrict_platform platforms base))
                    base).
  { eapply incl_tran; [apply incl_restrict_genre|].
    apply incl_restrict_platform. }
  unfold select. rewrite !len_zero. simpl.
  destruct platforms as [|p ps]; destruct genres as [|g gs]; simpl in *;
    rewrite ?loc_bool_column; simpl; rewrite ?loc_bool_column; simpl;
    rewrite Hy by exact Hi; reflexivity.
Qed.

Lemma within_spec lo hi (r : GameRecord) :
  within lo hi r = true <-> (lo <= Year_of_Release r <= hi)%Z.
Proof.
  unfold within. rewrite andb_true_iff, !Z.leb_le. tauto.
Qed.

Lemma filter_and {A : Type} (p q : A -> bool) (l : list A) :
  filter p (filter q l) = filter (fun x => q x && p x) l.
Proof.
  induction l as [|x l IH]; simpl; [reflexivity|].
  destruct (q x); simpl; [destruct (p x)|]; now rewrite IH.
Qed.

Lemma restrict_selected (base : DataFrame) platforms genres lo hi :
  restrict_year lo hi (restrict_genre genres (restrict_platform platforms base))
  = filter (fun ir => selected platforms genres lo hi (snd ir)) base.
Proof.
  unfold restrict_year, restrict_genre, restrict_platform, selected.
  destruct platforms as [|p ps]; destruct genres as [|g gs];
    rewrite ?filter_and; apply filter_ext; intros [i r];
    rewrite ?andb_true_r, ?andb_assoc; reflexivity.
Qed.

Ltac distinct_labels :=
  unfold unique_index; simpl; repeat constructor; simpl; intuition discriminate.

Lemma filtered_no_years (base : DataFrame) platforms genres :
  filtered base platforms genres []
  = Ok (restrict_genre genres (restrict_platform platforms base)).
Proof.
  rewrite filtered_select. apply select_no_years.
Qed.

Lemma filtered_years (base : DataFrame) platforms genres lo hi :
  unique_index base ->
  filtered base platforms genres [lo; hi]
  = Ok (restrict_year lo hi
          (restrict_genre genres (restrict_platform platforms base))).
Proof.
  intros H. rewrite filtered_select. now apply select_years.
Qed.

(** ** The year filter *)

(** C1.  On a base table (distinct labels, as [read_csv] gives them) and a
    selection with the year range [[lo, hi]], the frame the callback
    aggregates is the intermediate frame, that is the base table restricted
    by platform and then by genre, restricted to the rows whose year lies in
    [[lo, hi]], bounds included. *)
Theorem year_filter_restricts_intermediate
  (base : DataFrame) (platforms genres : list string) (lo hi : Z) :
  unique_index base ->
  exists inter,
    filtered base platforms genres [] = Ok inter
    /\ inter = restrict_genre genres (restrict_platform platforms base)
    /\ filtered base platforms genres [lo; hi] = Ok (restrict_year lo hi inter)
    /\ forall i r, In (i, r) (restrict_year lo hi inter)
                   <-> In (i, r) inter /\ (lo <= Year_of_Release r <= hi)%Z.
Proof.
  intros Hnd.
  exists (restrict_genre genres (restrict_platform platforms base)).
  split; [apply filtered_no_years|]. split; [reflexivity|].
  split; [now apply filtered_years|].
  intros i r. unfold restrict_year. rewrite filter_In. simpl.
  now rewrite within_spec.
Qed.

Lemma year_filter_restricts_intermediate_witness :
  exists inter,
    filtered (two_games "E" "T") ["PS4"] [] [] = Ok inter
    /\ inter = restrict_genre [] (restrict_platform ["PS4"] (two_games "E" "T"))
    /\ filtered (two_games "E" "T") ["PS4"] [] [2000; 2022]%Z
       = Ok (restrict_year 2000 2022 inter)
    /\ forall i r, In (i, r) (restrict_year 2000 2022 inter)
                   <-> In (i, r) inter
                       /\ (2000 <= Year_of_Release r <= 2022)%Z.
Proof.
  apply (@year_filter_restricts_intermediate
           (two_games "E" "T") ["PS4"] [] 2000%Z 2022%Z).
  distinct_labels.
Defined.

(** C10.  The mask of the year range computed on the whole base table and
    applied to the platform and genre filtered frame selects the rows that
    the mask computed on that frame itself selects: the frame's rows are rows
    of the base table and the labels carry the mask over.  So the year filter
    of the callback is the restriction of the frame already filtered. *)
Theorem year_mask_of_base_is_mask_of_subset
  (base : DataFrame) (platforms genres : list string) (lo hi : Z)
  (inter : DataFrame) :
  unique_index base ->
  filtered base platforms genres [] = Ok inter ->
  incl inter base
  /\ loc_bool inter (year_mask base lo hi)
     = loc_bool inter (year_mask inter lo hi)
  /\ filtered base platforms genres [lo; hi]
     = loc_bool inter (year_mask inter lo hi).
Proof.
  intros Hnd Hinter. rewrite filtered_no_years in Hinter.
  inversion Hinter as [E]; clear Hinter.
  assert (Hi : incl (restrict_genre genres (restrict_platform platforms base))
                    base).
  { eapply incl_tran; [apply incl_restrict_genre|].
    apply incl_restrict_platform. }
  split; [exact Hi|].
  rewrite !year_mask_column, loc_bool_column.
  split; [exact (loc_bool_aligned (within lo hi) Hnd Hi)|].
  now apply filtered_years.
Qed.

Lemma year_mask_of_base_is_mask_of_subset_witness :
  let base := two_games "E" "T" in
  let inter := [ (1, game "B" "PC" 2015 "RPG" (90 # 1) (8 # 1) "T") ] in
  incl inter base
  /\ loc_bool inter (year_mask base 2000 2012)
     = loc_bool inter (year_mask inter 2000 2012)
  /\ filtered base ["PC"] [] [2000; 2012]%Z
     = loc_bool inter (year_mask inter 2000 2012).
Proof.
  apply (@year_mask_of_base_is_mask_of_subset
           (two_games "E" "T") ["PC"] [] 2000%Z 2012%Z).
  - distinct_labels.
  - reflexivity.
Defined.

(** ** Distinct values *)

Section Unique.

Variable A : Type.
Variable eqb : A -> A -> bool.
Hypothesis eqb_eq : forall a b, eqb a b = true <-> a = b.

Lemma unique_In (x : A) (l : list A) : In x (unique eqb l) <-> In x l.
Proof.
  induction l as [|y l IH]; simpl; [tauto|].
  rewrite filter_In, IH, negb_true_iff. split.
  - intros [H | [H _]]; auto.
  - intros [H | H]; [now left|].
    destruct (eqb y x) eqn:E; [left; now apply eqb_eq | right; auto].
Qed.

Lemma unique_NoDup (l : list A) : NoDup (unique eqb l).
Proof.
  induction l as [|y l IH]; simpl; constructor.
  - rewrite filter_In, negb_true_iff. intros [_ H].
    assert (E : eqb y y = true) by now apply eqb_eq. congruence.
  - now apply NoDup_filter.
Qed.

Lemma unique_length_incl (l l' : list A) :
  incl l l' -> List.length (unique eqb l) <= List.length (unique eqb l').
Proof.
  intros H. apply NoDup_incl_length; [apply unique_NoDup|].
  intros x Hx. apply (proj2 (unique_In x l')). apply H.
  exact (proj1 (unique_In x l) Hx).
Qed.

End Unique.

Lemma in_values {R : Type} (x : R) (d : Frame R) :
  In x (values d) <-> exists i, In (i, x) d.
Proof.
  unfold values. rewrite in_map_iff. split.
  - intros [[i y] [E H]]. simpl in E. subst. now exists i.
  - intros [i H]. now exists (i, x).
Qed.


(** ** The scalar outputs *)



(** ** Selecting platforms *)

Lemma restrict_platform_commutes (base : DataFrame) platforms genres lo hi :
  restrict_year lo hi (restrict_genre genres (restrict_platform platforms base))
  = restrict_platform platforms
      (restrict_year lo hi (restrict_genre genres base)).
Proof.
  unfold restrict_year, restrict_genre, restrict_platform.
  destruct platforms as [|p ps]; destruct genres as [|g gs];
    rewrite ?filter_and; try reflexivity;
    apply filter_ext; intros [i r];
    repeat match goal with |- context [isin ?l ?x] => destruct (isin l x) end;
    repeat match goal with
           | |- context [within ?a ?b ?x] => destruct (within a b x)
           end; reflexivity.
Qed.

(** C5.  On a base table, the rows that a selection with some platforms
    keeps are rows that the same selection with no platform chosen (all
    platforms) keeps: they are that frame restricted to the chosen platforms.
    So there are at most as many rows, and at most as many distinct names. *)
Theorem platform_selection_only_restricts
  (base : DataFrame) (platforms genres : list string) (lo hi : Z) :
  unique_index base ->
  exists sub all,
    filtered base platforms genres [lo; hi] = Ok sub
    /\ filtered base [] genres [lo; hi] = Ok all
    /\ sub = restrict_platform platforms all
    /\ incl sub all
    /\ List.length sub <= List.length all
    /\ count_games (aggregate sub) <= count_games (aggregate all).
Proof.
  intros Hnd.
  exists (restrict_year lo hi
            (restrict_genre genres (restrict_platform platforms base))),
         (restrict_year lo hi (restrict_genre genres base)).
  split; [now apply filtered_years|].
  split; [now apply (@filtered_years base [] genres lo hi)|].
  rewrite restrict_platform_commutes.
  set (all := restrict_year lo hi (restrict_genre genres base)).
  assert (Hi : incl (restrict_platform platforms all) all)
    by apply incl_restrict_platform.
  split; [reflexivity|]. split; [exact Hi|]. split.
  - destruct platforms; simpl; [lia | apply filter_length_le].
  - simpl. unfold len. apply (unique_length_incl String.eqb String.eqb_eq).
    apply incl_map. unfold values. now apply incl_map.
Qed.

Lemma platform_selection_only_restricts_witness :
  exists sub all,
    filtered (two_games "E" "T") ["PS4"] [] [2000; 2022]%Z = Ok sub
    /\ filtered (two_games "E" "T") [] [] [2000; 2022]%Z = Ok all
    /\ sub = restrict_platform ["PS4"] all
    /\ incl sub all
    /\ List.length sub <= List.length all
    /\ count_games (aggregate sub) <= count_games (aggregate all).
Proof.
  apply (@platform_selection_only_restricts
           (two_games "E" "T") ["PS4"] [] 2000%Z 2022%Z).
  distinct_labels.
Defined.

(** ** The empty selection *)

Lemma fold_min_le (ys : list Z) (y : Z) :
  (fold_left Z.min ys y <= y)%Z
  /\ forall x, In x ys -> (fold_left Z.min ys y <= x)%Z.
Proof.
  revert y. induction ys as [|a ys IH]; intros y; simpl.
  - split; [lia | contradiction].
  - destruct (IH (Z.min y a)) as [H1 H2]. split; [lia|].
    intros x [-> | Hx]; [lia | now apply H2].
Qed.

Lemma fold_max_ge (ys : list Z) (y : Z) :
  (y <= fold_left Z.max ys y)%Z
  /\ forall x, In x ys -> (x <= fold_left Z.max ys y)%Z.
Proof.
  revert y. induction ys as [|a ys IH]; intros y; simpl.
  - split; [lia | contradiction].
  - destruct (IH (Z.max y a)) as [H1 H2]. split; [lia|].
    intros x [-> | Hx]; [lia | now apply H2].
Qed.

Lemma min_year_le (base : DataFrame) lo i r :
  min_year base = Some lo -> In (i, r) base -> (lo <= Year_of_Release r)%Z.
Proof.
  unfold min_year. intros H Hin.
  assert (Hy : In (Year_of_Release r)
                  (values (column (@Year_of_Release Z Q Q) base))).
  { rewrite values_column. apply in_map_iff. now exists (i, r). }
  destruct (values (column (@Year_of_Release Z Q Q) base)) as [|y ys];
    [discriminate|].
  inversion H; subst. destruct (fold_min_le ys y) as [H1 H2].
  destruct Hy as [<- | Hy]; [exact H1 | now apply H2].
Qed.

Lemma max_year_ge (base : DataFrame) hi i r :
  max_year base = Some hi -> In (i, r) base -> (Year_of_Release r <= hi)%Z.
Proof.
  unfold max_year. intros H Hin.
  assert (Hy : In (Year_of_Release r)
                  (values (column (@Year_of_Release Z Q Q) base))).
  { rewrite values_column. apply in_map_iff. now exists (i, r). }
  destruct (values (column (@Year_of_Release Z Q Q) base)) as [|y ys];
    [discriminate|].
  inversion H; subst. destruct (fold_max_ge ys y) as [H1 H2].
  destruct Hy as [<- | Hy]; [exact H1 | now apply H2].
Qed.

Lemma filter_all {A : Type} (p : A -> bool) (l : list A) :
  (forall x, In x l -> p x = true) -> filter p l = l.
Proof.
  intros H. apply forallb_filter_id. apply forallb_forall. exact H.
Qed.

Lemma filter_none {A : Type} (p : A -> bool) (l : list A) :
  (forall x, In x l -> p x = false) -> filter p l = [].
Proof.
  induction l as [|x l IH]; simpl; intros H; [reflexivity|].
  rewrite (H x (or_introl eq_refl)). apply IH. intros y Hy. apply H. now right.
Qed.

(** C4.  With no platform and no genre selected and the year range set to
    the least and the greatest year of the base table (the slider's initial
    value, lines 35, 36 and 81), the callback aggregates the whole base
    table: its result is [aggregate base], which is also its result when no
    filter at all is applied. *)
Theorem empty_selection_aggregates_base_table (base : DataFrame) (lo hi : Z) :
  min_year base = Some lo ->
  max_year base = Some hi ->
  filtered base [] [] [lo; hi] = Ok base
  /\ engine base [] [] [lo; hi] = Ok (aggregate base)
  /\ engine base [] [] [lo; hi] = engine base [] [] [].
Proof.
  intros Hlo Hhi.
  assert (Hf : filtered base [] [] [lo; hi] = Ok base).
  { rewrite filtered_select. unfold select. simpl.
    rewrite year_mask_column, loc_bool_column. simpl. f_equal.
    apply filter_all. intros [i r] Hin. simpl. apply within_spec. split.
    - eapply min_year_le; eauto.
    - eapply max_year_ge; eauto. }
  split; [exact Hf|].
  rewrite !engine_filtered, Hf, filtered_no_years. simpl. auto.
Qed.

Lemma empty_selection_aggregates_base_table_witness :
  filtered (two_games "E" "T") [] [] [2010; 2015]%Z = Ok (two_games "E" "T")
  /\ engine (two_games "E" "T") [] [] [2010; 2015]%Z
     = Ok (aggregate (two_games "E" "T"))
  /\ engine (two_games "E" "T") [] [] [2010; 2015]%Z
     = engine (two_games "E" "T") [] [] [].
Proof.
  apply (@empty_selection_aggregates_base_table
           (two_games "E" "T") 2010%Z 2015%Z); reflexivity.
Defined.

(** ** A selection that matches nothing *)

(** C6.  When no row of the base table passes the filters of the selection,
    the callback does not raise: it returns the count 0 and NaN, the value
    pandas gives for the mean of an empty column, for both means (and empty
    data for the three figures). *)
Theorem no_match_returns_zero_and_nan
  (base : DataFrame) (platforms genres : list string) (lo hi : Z) :
  unique_index base ->
  (forall i r, In (i, r) base -> selected platforms genres lo hi r = false) ->
  engine base platforms genres [lo; hi]
  = Ok {| count_games := 0; avg_players := NaN; avg_critics := NaN;
          stacked_by_year := []; scatter_by_genre := [];
          graph_critics_by_genre := [] |}.
Proof.
  intros Hnd Hno.
  rewrite engine_filtered, (filtered_years _ _ _ _ Hnd), restrict_selected.
  rewrite filter_none; [reflexivity|].
  intros [i r] Hin. now apply (Hno i r).
Qed.

Lemma no_match_returns_zero_and_nan_witness :
  engine (two_games "E" "T") [] [] [2020; 2022]%Z
  = Ok {| count_games := 0; avg_players := NaN; avg_critics := NaN;
          stacked_by_year := []; scatter_by_genre := [];
          graph_critics_by_genre := [] |}.
Proof.
  apply (@no_match_returns_zero_and_nan
           (two_games "E" "T") [] [] 2020%Z 2022%Z).
  - distinct_labels.
  - simpl. intros i r [H | [H | []]]; inversion H; reflexivity.
Defined.

(** ** The example of section 8 *)

(** C8.  On the two rows of the example, whatever their ratings, the
    selection of platform PS4, no genre and the years 2000 to 2022 gives the
    count 1, the mean user score 7.5 and the mean critic score 80. *)
Theorem example_ps4 (rating_a rating_b : string) :
  exists out,
    engine (two_games rating_a rating_b) ["PS4"] [] [2000; 2022]%Z = Ok out
    /\ count_games out = 1
    /\ avg_players out = Fin (15 # 2)
    /\ avg_critics out = Fin (80 # 1).
Proof.
  eexists. split; [|split; [|split]].
  - rewrite engine_select. reflexivity.
  - reflexivity.
  - reflexivity.
  - reflexivity.
Qed.

(** ** The callback and the base table *)

Lemma base_table_holds (s : state) (base : DataFrame) :
  base_table s = Some base <-> exists g, df s = Some g /\ holds s g base.
Proof.
  unfold base_table, holds. split.
  - destruct (df s) as [g|]; [|discriminate]. intros H. now exists g.
  - intros [g [-> H]]. exact H.
Qed.

(** The module body leaves the interpreter in [boot base], where [base] is
    the table of the loader. *)
Lemma module_body_boot (parse_number : string -> option Q)
  (parse_int : string -> option Z) lines base :
  loader parse_number parse_int lines = Ok base ->
  module_body parse_number parse_int lines empty_state = (Ok tt, boot base).
Proof.
  intros H. unfold module_body, bind, lift. rewrite H. reflexivity.
Qed.

Lemma callback_pure (s : state) (base : DataFrame) platforms genres years :
  base_table s = Some base ->
  fst (callback platforms genres years s) = engine base platforms genres years
  /\ extends s (snd (callback platforms genres years s)).
Proof.
  intros H. apply base_table_holds in H. destruct H as [g [Hdf Hg]].
  rewrite engine_select. now apply callback_run with (g := g).
Qed.

Lemma reachable_base_table (base : DataFrame) (s : state) :
  reachable base s -> base_table s = Some base.
Proof.
  induction 1 as [|s s' _ IH Hstep]; [reflexivity|].
  destruct Hstep as [platforms genres years].
  apply (@extends_base_table s); [|exact IH].
  exact (proj2 (@callback_pure s base platforms genres years IH)).
Qed.

(** C9.  In every state the process reaches by running the callback any
    number of times after the module body has bound [df] to [base], [df]
    still denotes [base]; there, the callback's result, a value or an
    exception, is a function of [base] and of the selection alone, and the
    state it leaves has the same objects unchanged (only new ones added),
    the same binding of [df], and so the same base table. *)
Theorem callback_leaves_base_table (base : DataFrame) (s : state) :
  reachable base s ->
  base_table s = Some base
  /\ forall platforms genres years,
       fst (callback platforms genres years s)
       = engine base platforms genres years
       /\ extends s (snd (callback platforms genres years s))
       /\ base_table (snd (callback platforms genres years s)) = Some base.
Proof.
  intros Hr. pose proof (reachable_base_table Hr) as Hb.
  split; [exact Hb|]. intros platforms genres years.
  destruct (@callback_pure s base platforms genres years Hb) as [H1 H2].
  split; [exact H1|]. split; [exact H2|].
  exact (extends_base_table H2 Hb).
Qed.

Lemma callback_leaves_base_table_witness :
  let base := two_games "E" "T" in
  let s := snd (callback ["PS4"] [] [2000; 2022]%Z
             (snd (callback [] ["RPG"] [2015]%Z (boot base)))) in
  base_table s = Some base
  /\ forall platforms genres years,
       fst (callback platforms genres years s)
       = engine base platforms genres years
       /\ extends s (snd (callback platforms genres years s))
       /\ base_table (snd (callback platforms genres years s)) = Some base.
Proof.
  apply (@callback_leaves_base_table (two_games "E" "T")).
  eapply reachable_step;
    [eapply reachable_step; [apply reachable_boot|] |];
    apply interaction_intro.
Defined.

(** ** Sorting and the mode *)

Section Sort.

Variable A : Type.
Variable leb : A -> A -> bool.

Lemma insert_In (x y : A) (l : list A) :
  In y (insert leb x l) <-> y = x \/ In y l.
Proof.
  induction l as [|z l IH]; simpl; [intuition|].
  destruct (leb x z); simpl; [intuition|]. rewrite IH. intuition.
Qed.

Lemma sort_In (y : A) (l : list A) : In y (sort leb l) <-> In y l.
Proof.
  induction l as [|x l IH]; simpl; [tauto|].
  rewrite insert_In, IH. intuition.
Qed.

Lemma insert_NoDup (x : A) (l : list A) :
  ~ In x l -> NoDup l -> NoDup (insert leb x l).
Proof.
  induction l as [|z l IH]; simpl; intros Hx Hnd.
  - constructor; [tauto | constructor].
  - destruct (leb x z).
    + constructor; [simpl; tauto | exact Hnd].
    + inversion Hnd as [|? ? Hz Hl]; subst. constructor.
      * rewrite insert_In. intros [E | H]; [subst; tauto | tauto].
      * apply IH; tauto.
Qed.

Lemma sort_NoDup (l : list A) : NoDup l -> NoDup (sort leb l).
Proof.
  induction l as [|x l IH]; simpl; intros H; [constructor|].
  inversion H; subst. apply insert_NoDup; [rewrite sort_In|]; auto.
Qed.

Hypothesis leb_total : forall a b, leb a b = true \/ leb b a = true.

Lemma insert_Sorted (x : A) (l : list A) :
  Sorted (fun a b => leb a b = true) l ->
  Sorted (fun a b => leb a b = true) (insert leb x l).
Proof.
  induction l as [|z l IH]; simpl; intros H.
  - repeat constructor.
  - destruct (leb x z) eqn:E.
    + constructor; [exact H | constructor; exact E].
    + inversion H as [|? ? Hs Hh]; subst. constructor; [now apply IH|].
      destruct l as [|w l]; simpl.
      * constructor. destruct (leb_total x z); congruence.
      * destruct (leb x w).
        -- constructor. destruct (leb_total x z); congruence.
        -- inversion Hh; subst. now constructor.
Qed.

Lemma sort_Sorted (l : list A) : Sorted (fun a b => leb a b = true) (sort leb l).
Proof.
  induction l as [|x l IH]; simpl; [constructor | now apply insert_Sorted].
Qed.

End Sort.

Lemma max_of_counts (f : string -> nat) (u : list string) :
  (forall y, In y u -> f y <= fold_right Nat.max 0 (map f u))
  /\ (u <> [] -> exists y, In y u /\ f y = fold_right Nat.max 0 (map f u)).
Proof.
  induction u as [|x u [IH1 IH2]]; simpl.
  - split; [contradiction | congruence].
  - split.
    + intros y [<- | Hy]; [lia|]. specialize (IH1 y Hy). lia.
    + intros _. destruct u as [|z u].
      * exists x. simpl. split; [now left | lia].
      * destruct IH2 as [y [Hy E]]; [discriminate|].
        destruct (Nat.max_spec (f x) (fold_right Nat.max 0 (map f (z :: u))))
          as [[_ M] | [_ M]]; rewrite M.
        -- exists y. split; [now right | exact E].
        -- exists x. split; [now left | reflexivity].
Qed.

(** The values of [mode l] are the most frequent values of [l]. *)
Lemma mode_In (l : list string) (x : string) :
  In x (mode l) <-> most_frequent l x.
Proof.
  unfold mode, most_frequent, occurrences.
  set (u := unique String.eqb l).
  set (f := fun y => count String.eqb y l).
  destruct (max_of_counts f u) as [Hle Hex].
  rewrite sort_In, filter_In, Nat.eqb_eq.
  unfold u at 1. rewrite (unique_In _ String.eqb_eq). fold (f x).
  split.
  - intros [Hx E]. split; [exact Hx|]. intros y Hy. fold (f y). rewrite E.
    apply Hle. now apply (unique_In _ String.eqb_eq).
  - intros [Hx Hmax]. split; [exact Hx|].
    assert (Hx' : In x u)
      by exact (proj2 (@unique_In string String.eqb String.eqb_eq x l) Hx).
    destruct Hex as [y [Hy E]].
    { intros Hu. rewrite Hu in Hx'. contradiction. }
    apply (proj1 (@unique_In string String.eqb String.eqb_eq y l)) in Hy.
    specialize (Hmax y Hy). fold (f y) in Hmax.
    specialize (Hle x Hx'). lia.
Qed.

Lemma mode_NoDup (l : list string) : NoDup (mode l).
Proof.
  unfold mode. apply sort_NoDup, NoDup_filter, unique_NoDup, String.eqb_eq.
Qed.

Lemma mode_Sorted (l : list string) : Sorted string_le (mode l).
Proof.
  unfold mode. apply (sort_Sorted String.leb String.leb_total).
Qed.

Lemma NoDup_only (x : string) (m : list string) :
  NoDup m -> In x m -> (forall y, In y m -> y = x) -> m = [x].
Proof.
  intros Hnd Hx Hall. destruct m as [|a m]; [contradiction|].
  assert (a = x) by (apply Hall; now left). subst a.
  destruct m as [|b m]; [reflexivity|].
  assert (b = x) by (apply Hall; right; now left). subst b.
  inversion Hnd as [|? ? Hnot _]. exfalso. apply Hnot. now left.
Qed.

(** A value that occurs more often than every other one is the whole mode. *)
Lemma mode_single (l : list string) (x : string) :
  single_most_frequent l x -> mode l = [x].
Proof.
  intros [Hx Hs]. apply NoDup_only; [apply mode_NoDup | |].
  - apply mode_In. split; [exact Hx|]. intros y Hy.
    destruct (String.eqb_spec y x) as [-> | Hne]; [lia|].
    specialize (Hs y Hy Hne). lia.
  - intros y Hy. apply mode_In in Hy. destruct Hy as [Hy Hmax].
    destruct (String.eqb_spec y x) as [-> | Hne]; [reflexivity|].
    specialize (Hs y Hy Hne). specialize (Hmax x Hx). lia.
Qed.

Lemma groupby_mode_In (d : DataFrame) (g : string) (v : aggregated) :
  In (g, v) (groupby_mode d)
  <-> In g (map (@Genre Z Q Q) (values d))
      /\ v = extract_result (mode (ratings_of g d)).
Proof.
  unfold groupby_mode. rewrite in_map_iff. split.
  - intros [g' [E H]]. inversion E; subst.
    apply (proj1 (sort_In String.leb _ _)) in H.
    apply (proj1 (@unique_In string String.eqb String.eqb_eq _ _)) in H.
    auto.
  - intros [H ->]. exists g. split; [reflexivity|].
    apply (proj2 (sort_In String.leb _ _)).
    exact (proj2 (@unique_In string String.eqb String.eqb_eq _ _) H).
Qed.

(** ** The mode of the ratings of a genre *)

(** C7 fails as stated.  On two games of the genre Action rated T and E, no
    rating is more frequent than the other: [pd.Series.mode] returns both,
    and the table maps Action to the array of the two, not to one rating. *)
Lemma tied_ratings_have_no_single_mode :
  engine tied_games [] [] [2000; 2022]%Z
  = Ok {| count_games := 2;
          avg_players := Fin (31 # 4);
          avg_critics := Fin (85 # 1);
          stacked_by_year := [("PC", 2015%Z, 1); ("PS4", 2010%Z, 1)];
          scatter_by_genre := [((15 # 2)%Q, (80 # 1)%Q, "Action");
                               ((8 # 1)%Q, (90 # 1)%Q, "Action")];
          graph_critics_by_genre := [("Action", Array ["E"; "T"])] |}
  /\ unique_index tied_games
  /\ ~ maps_genres_to_single_mode tied_games [] [] 2000 2022.
Proof.
  assert (He : engine tied_games [] [] [2000; 2022]%Z
               = Ok (aggregate tied_games)) by reflexivity.
  split; [reflexivity|]. split; [distinct_labels|].
  intros H.
  destruct (H tied_games (aggregate tied_games) eq_refl He "Action")
    as [x [Hin _]]; [simpl; auto|].
  vm_compute in Hin. destruct Hin as [Hin | []]. discriminate Hin.
Qed.

(** C7, amended.  On a base table and a selection with a year range, the
    per-genre table has exactly one line for each genre of the filtered
    frame, and no other line.  The line of a genre holds what
    [extract_result] makes of the mode of the ratings of the genre's rows:
    the mode is the sorted, duplicate-free list of the ratings that are most
    frequent in the group; the line holds that one rating when a rating
    occurs more often than every other one, and the array of the tied
    ratings otherwise. *)
Theorem genre_rating_modes
  (base : DataFrame) (platforms genres : list string) (lo hi : Z) :
  unique_index base ->
  exists sub out,
    filtered base platforms genres [lo; hi] = Ok sub
    /\ engine base platforms genres [lo; hi] = Ok out
    /\ (forall g v,
          In (g, v) (graph_critics_by_genre out)
          <-> In g (map (@Genre Z Q Q) (values sub))
              /\ v = extract_result (mode (ratings_of g sub)))
    /\ (forall g,
          NoDup (mode (ratings_of g sub))
          /\ Sorted string_le (mode (ratings_of g sub))
          /\ (forall x, In x (mode (ratings_of g sub))
                        <-> most_frequent (ratings_of g sub) x))
    /\ (forall g x,
          In g (map (@Genre Z Q Q) (values sub)) ->
          single_most_frequent (ratings_of g sub) x ->
          In (g, Scalar x) (graph_critics_by_genre out))
    /\ (forall g x y,
          In g (map (@Genre Z Q Q) (values sub)) ->
          most_frequent (ratings_of g sub) x ->
          most_frequent (ratings_of g sub) y ->
          x <> y ->
          In (g, Array (mode (ratings_of g sub)))
             (graph_critics_by_genre out)).
Proof.
  intros Hnd.
  pose proof (@filtered_years base platforms genres lo hi Hnd) as Hf.
  set (sub := restrict_year lo hi
                (restrict_genre genres (restrict_platform platforms base)))
    in *.
  exists sub, (aggregate sub).
  split; [exact Hf|].
  split; [rewrite engine_filtered, Hf; reflexivity|].
  simpl. split; [intros g v; apply groupby_mode_In|].
  split.
  { intros g. split; [apply mode_NoDup|]. split; [apply mode_Sorted|].
    intros x. apply mode_In. }
  split.
  - intros g x Hg Hs. apply groupby_mode_In. split; [exact Hg|].
    rewrite (mode_single Hs). reflexivity.
  - intros g x y Hg Hx Hy Hne. apply groupby_mode_In. split; [exact Hg|].
    apply mode_In in Hx. apply mode_In in Hy.
    destruct (mode (ratings_of g sub)) as [|a [|b m]]; simpl in *;
      [contradiction | | reflexivity].
    destruct Hx as [<- | []]. destruct Hy as [<- | []]. congruence.
Qed.

Lemma genre_rating_modes_witness :
  exists sub out,
    filtered tied_games [] [] [2000; 2022]%Z = Ok sub
    /\ engine tied_games [] [] [2000; 2022]%Z = Ok out
    /\ (forall g v,
          In (g, v) (graph_critics_by_genre out)
          <-> In g (map (@Genre Z Q Q) (values sub))
              /\ v = extract_result (mode (ratings_of g sub)))
    /\ (forall g,
          NoDup (mode (ratings_of g sub))
          /\ Sorted string_le (mode (ratings_of g sub))
          /\ (forall x, In x (mode (ratings_of g sub))
                        <-> most_frequent (ratings_of g sub) x))
    /\ (forall g x,
          In g (map (@Genre Z Q Q) (values sub)) ->
          single_most_frequent (ratings_of g sub) x ->
          In (g, Scalar x) (graph_critics_by_genre out))
    /\ (forall g x y,
          In g (map (@Genre Z Q Q) (values sub)) ->
          most_frequent (ratings_of g sub) x ->
          most_frequent (ratings_of g sub) y ->
          x <> y ->
          In (g, Array (mode (ratings_of g sub)))
             (graph_critics_by_genre out)).
Proof.
  apply (@genre_rating_modes tied_games [] [] 2000%Z 2022%Z).
  distinct_labels.
Defined.

(** ** The loader *)

Section LoaderFacts.

Variable parse_number : string -> option Q.
Variable parse_int : string -> option Z.

Lemma keep_numeric_filter (col : Row Z cell cell -> cell) d :
  keep_numeric parse_number col d
  = Ok (filter (fun ir => notnull (to_numeric_coerce parse_number
                                     (col (snd ir)))) d).
Proof.
  unfold keep_numeric.
  exact (loc_bool_column
           (fun r => notnull (to_numeric_coerce parse_number (col r))) d).
Qed.

Lemma astype_int_raises (y : year_cell) (e : exn) :
  astype_int parse_int y = Raise e -> e = ValueError.
Proof.
  destruct y as [[z|q]|b|s]; simpl; try congruence.
  destruct (parse_int s); congruence.
Qed.

Lemma astype_int_convertible (y : year_cell) :
  (exists z, astype_int parse_int y = Ok z) <-> convertible parse_int y.
Proof.
  destruct y as [[z|q]|b|s]; simpl.
  - split; [trivial | eauto].
  - split; [trivial | eauto].
  - split; [intros [z H]; discriminate | contradiction].
  - destruct (parse_int s) as [z|]; split.
    + discriminate.
    + eauto.
    + intros [z H]. discriminate.
    + congruence.
Qed.

Lemma prepare_unfold (raw : Frame RawRecord) :
  prepare parse_number parse_int raw
  = rbind (year_astype_int parse_int (dropna raw)) (finish parse_number).
Proof. reflexivity. Qed.

Lemma finish_unfold (d : Frame (Row Z cell cell)) :
  finish parse_number d
  = rbind (user_to_numeric parse_number
             (filter (fun ir => within 2000 2022 (snd ir))
                (filter (fun ir => notnull (to_numeric_coerce parse_number
                                              (User_Score (snd ir))))
                   (filter (fun ir => notnull (to_numeric_coerce parse_number
                                                 (Critic_Score (snd ir))))
                      d))))
          (fun d => rbind (critic_to_numeric parse_number d) (fun d => Ok d)).
Proof.
  unfold finish. simpl. rewrite !keep_numeric_filter. simpl.
  rewrite keep_numeric_filter. simpl.
  rewrite year_mask_column, loc_bool_column. reflexivity.
Qed.

Lemma user_to_numeric_cons i (x : Row Z cell cell) d u :
  to_numeric_coerce parse_number (User_Score x) = Some u ->
  user_to_numeric parse_number ((i, x) :: d)
  = rbind (user_to_numeric parse_number d)
          (fun ys => Ok ((i, with_User u x) :: ys)).
Proof.
  intros E. unfold user_to_numeric, to_numeric. simpl. rewrite E. reflexivity.
Qed.

Lemma critic_to_numeric_cons i (x : Row Z cell Q) d c :
  to_numeric_coerce parse_number (Critic_Score x) = Some c ->
  critic_to_numeric parse_number ((i, x) :: d)
  = rbind (critic_to_numeric parse_number d)
          (fun ys => Ok ((i, with_Critic c x) :: ys)).
Proof.
  intros E. unfold critic_to_numeric, to_numeric. simpl. rewrite E. reflexivity.
Qed.

(** Lines 14 to 26 never raise, and keep the rows that pass. *)
Lemma finish_cons i (x : Row Z cell cell) d :
  finish parse_number ((i, x) :: d)
  = match clean_row parse_number x with
    | Some g => rbind (finish parse_number d) (fun t => Ok ((i, g) :: t))
    | None => finish parse_number d
    end.
Proof.
  rewrite !finish_unfold. unfold clean_row. simpl.
  destruct (to_numeric_coerce parse_number (Critic_Score x)) as [cs|] eqn:Ec;
    simpl; [|reflexivity].
  destruct (to_numeric_coerce parse_number (User_Score x)) as [us|] eqn:Eu;
    simpl; [|reflexivity].
  unfold within at 1. simpl.
  destruct ((2000 <=? Year_of_Release x)%Z && (Year_of_Release x <=? 2022)%Z);
    [|reflexivity].
  rewrite (@user_to_numeric_cons i _ _ us) by exact Eu.
  destruct (user_to_numeric parse_number _) as [d'|e]; simpl; [|reflexivity].
  rewrite (@critic_to_numeric_cons i _ _ cs) by exact Ec.
  destruct (critic_to_numeric parse_number d') as [d''|e]; reflexivity.
Qed.

(** Lines 9 to 26 raise exactly when line 11 cannot convert a year, and
    otherwise keep exactly the lines that pass. *)
Lemma prepare_cleaned (raw : Frame RawRecord) :
  prepare parse_number parse_int raw
  = if years_convert parse_int raw
    then Ok (cleaned parse_number parse_int raw)
    else Raise ValueError.
Proof.
  rewrite prepare_unfold.
  induction raw as [|[i r] raw IH]; [reflexivity|].
  simpl. unfold clean.
  destruct (present r) as [c|]; [|exact IH].
  unfold year_astype_int. simpl.
  destruct (astype_int parse_int (Year_of_Release c)) as [y|e] eqn:Ey; simpl.
  - fold (year_astype_int parse_int (dropna raw)).
    destruct (year_astype_int parse_int (dropna raw)) as [d|e]; simpl in *.
    + rewrite finish_cons, IH.
      destruct (clean_row parse_number (with_Year y c));
        destruct (years_convert parse_int raw); reflexivity.
    + destruct (years_convert parse_int raw); [discriminate IH | exact IH].
  - now rewrite (astype_int_raises _ Ey).
Qed.

Lemma years_convert_spec (raw : Frame RawRecord) :
  years_convert parse_int raw = true
  <-> forall i r c, In (i, r) raw -> present r = Some c ->
        convertible parse_int (Year_of_Release c).
Proof.
  unfold years_convert. rewrite forallb_forall. split.
  - intros H i r c Hin Hp. specialize (H (i, r) Hin). simpl in H.
    rewrite Hp in H. apply astype_int_convertible.
    destruct (astype_int parse_int (Year_of_Release c)) as [z|e];
      [eauto | discriminate].
  - intros H [i r] Hin. simpl.
    destruct (present r) as [c|] eqn:Hp; [|reflexivity].
    destruct (proj2 (astype_int_convertible _) (H i r c Hin Hp)) as [z E].
    now rewrite E.
Qed.

Lemma cleaned_In (raw : Frame RawRecord) i g :
  In (i, g) (cleaned parse_number parse_int raw)
  <-> exists r, In (i, r) raw /\ clean parse_number parse_int r = Some g.
Proof.
  induction raw as [|[j r] raw IH]; simpl.
  - split; [contradiction | intros [r [[] _]]].
  - destruct (clean parse_number parse_int r) as [g'|] eqn:E; simpl;
      rewrite IH; split.
    + intros [H | [r' [H1 H2]]].
      * inversion H; subst. exists r. auto.
      * exists r'. auto.
    + intros [r' [[H | H] H2]].
      * inversion H; subst. left. congruence.
      * right. exists r'. auto.
    + intros [r' [H1 H2]]. exists r'. auto.
    + intros [r' [[H | H] H2]].
      * inversion H; subst. congruence.
      * exists r'. auto.
Qed.

Lemma cleaned_index_incl (raw : Frame RawRecord) :
  incl (index (cleaned parse_number parse_int raw)) (index raw).
Proof.
  intros i Hi. unfold index in Hi. apply in_map_iff in Hi.
  destruct Hi as [[j g] [E H]]. simpl in E. subst j.
  apply cleaned_In in H. destruct H as [r [H _]].
  eapply in_index; eauto.
Qed.

Lemma cleaned_unique_index (raw : Frame RawRecord) :
  unique_index raw -> unique_index (cleaned parse_number parse_int raw).
Proof.
  unfold unique_index.
  induction raw as [|[i r] raw IH]; simpl; intros H; [constructor|].
  inversion H as [|? ? Hi Hnd]; subst.
  destruct (clean parse_number parse_int r); simpl; [|now apply IH].
  constructor; [|now apply IH].
  intros Hin. apply Hi. now apply cleaned_index_incl.
Qed.

(** What passing means, test by test. *)
Lemma clean_Some (r : RawRecord) (g : GameRecord) :
  clean parse_number parse_int r = Some g
  <-> exists c,
        present r = Some c
        /\ to_numeric_coerce parse_number (Critic_Score c)
           = Some (Critic_Score g)
        /\ to_numeric_coerce parse_number (User_Score c)
           = Some (User_Score g)
        /\ astype_int parse_int (Year_of_Release c) = Ok (Year_of_Release g)
        /\ (2000 <= Year_of_Release g <= 2022)%Z
        /\ Name g = Name c /\ Platform g = Platform c /\ Genre g = Genre c
        /\ Rating g = Rating c /\ Other g = Other c.
Proof.
  unfold clean, clean_row. split.
  - destruct (present r) as [c|]; [|discriminate].
    destruct (astype_int parse_int (Year_of_Release c)) as [y|e] eqn:Ey;
      [|discriminate]. simpl.
    destruct (to_numeric_coerce parse_number (Critic_Score c)) as [cs|] eqn:Ec;
      [|discriminate].
    destruct (to_numeric_coerce parse_number (User_Score c)) as [us|] eqn:Eu;
      [|discriminate].
    destruct ((2000 <=? y)%Z && (y <=? 2022)%Z) eqn:W; [|discriminate].
    intros H. inversion H; subst; clear H. exists c. simpl.
    apply andb_true_iff in W. rewrite !Z.leb_le in W.
    repeat split; try reflexivity; try assumption; tauto.
  - intros [c [-> [Hc [Hu [-> [Hw H]]]]]]. simpl. rewrite Hc, Hu.
    rewrite (proj2 (Z.leb_le 2000 (Year_of_Release g)) (proj1 Hw)).
    rewrite (proj2 (Z.leb_le (Year_of_Release g) 2022) (proj2 Hw)).
    simpl. f_equal. destruct g, c. simpl in *.
    destruct H as [-> [-> [-> [-> ->]]]]. reflexivity.
Qed.

End LoaderFacts.

Lemma all_present_None (l : list (option cell)) :
  all_present l = None <-> In None l.
Proof.
  induction l as [|[c|] l IH]; simpl.
  - split; [discriminate | contradiction].
  - destruct (all_present l).
    + split; [discriminate|]. intros [H | H]; [discriminate|].
      now apply IH in H.
    + split; [intros _; right; now apply IH | reflexivity].
  - split; [now left | reflexivity].
Qed.

(** [dropna] drops a line exactly when one of its cells is missing. *)
Lemma present_None (r : RawRecord) :
  present r = None
  <-> raw_Name r = None \/ raw_Platform r = None
      \/ raw_Year_of_Release r = None \/ raw_Genre r = None
      \/ raw_Critic_Score r = None \/ raw_User_Score r = None
      \/ raw_Rating r = None \/ In None (raw_Other r).
Proof.
  rewrite <- all_present_None. unfold present.
  destruct (raw_Name r), (raw_Platform r), (raw_Year_of_Release r),
    (raw_Genre r), (raw_Critic_Score r), (raw_User_Score r), (raw_Rating r),
    (all_present (raw_Other r)); split; intros H; try reflexivity;
    try discriminate; try tauto;
    repeat (destruct H as [H | H]; try discriminate).
Qed.

Lemma read_csv_In_from (lines : list RawRecord) (a i : nat) (r : RawRecord) :
  In (i, r) (combine (seq a (List.length lines)) lines)
  <-> a <= i /\ nth_error lines (i - a) = Some r.
Proof.
  revert a. induction lines as [|x lines IH]; intros a; simpl.
  - split; [contradiction|]. intros [_ H]. destruct (i - a); discriminate.
  - rewrite IH. split.
    + intros [H | [H1 H2]].
      * inversion H; subst. rewrite Nat.sub_diag. auto.
      * split; [lia|]. replace (i - a) with (S (i - S a)) by lia. exact H2.
    + intros [H1 H2]. destruct (i - a) as [|k] eqn:E.
      * left. simpl in H2. inversion H2; subst. f_equal. lia.
      * right. split; [lia|]. simpl in H2.
        replace (i - S a) with k by lia. exact H2.
Qed.

Lemma read_csv_In (lines : list RawRecord) (i : nat) (r : RawRecord) :
  In (i, r) (read_csv lines) <-> nth_error lines i = Some r.
Proof.
  unfold read_csv. rewrite read_csv_In_from, Nat.sub_0_r.
  split; [tauto | split; [lia | assumption]].
Qed.

Lemma index_read_csv_from (lines : list RawRecord) (a : nat) :
  index (combine (seq a (List.length lines)) lines) = seq a (List.length lines).
Proof.
  revert a. induction lines as [|x lines IH]; intros a; simpl; [reflexivity|].
  f_equal. apply IH.
Qed.

Lemma read_csv_unique_index (lines : list RawRecord) :
  unique_index (read_csv lines).
Proof.
  unfold unique_index, read_csv. rewrite index_read_csv_from. apply seq_NoDup.
Qed.

(** What the loader returns, when it returns. *)
Lemma loader_Ok (parse_number : string -> option Q)
  (parse_int : string -> option Z) (lines : list RawRecord) (base : DataFrame) :
  loader parse_number parse_int lines = Ok base ->
  years_convert parse_int (read_csv lines) = true
  /\ base = cleaned parse_number parse_int (read_csv lines).
Proof.
  unfold loader. rewrite prepare_cleaned.
  destruct (years_convert parse_int (read_csv lines)); [|discriminate].
  intros H. split; [reflexivity | congruence].
Qed.

(** The loader on the sample: the second, third and fourth lines are
    dropped, the others keep their labels, and 2015.5 becomes 2015. *)
Example loader_sample :
  loader sample_parse sample_int sample_lines
  = Ok [ (0, game "A" "PS4" 2010 "Action" (80 # 1) (15 # 2) "E");
         (4, game "B" "PC" 2015 "RPG" (90 # 1) (8 # 1) "T") ].
Proof. reflexivity. Qed.

(** ** The base table *)

(** C2 fails as stated.  A line that has every cell but whose year is
    infinite, or text that is no whole number, is not dropped: line 11 raises
    on it, and so does the loader, also when every other line is in order. *)
Lemma loader_raises_on_a_year_that_is_no_number :
  loader sample_parse sample_int (sample_lines ++ [infinite_year_line])
  = Raise ValueError
  /\ loader sample_parse sample_int [text_year_line] = Raise ValueError
  /\ ~ drops_without_error sample_parse sample_int
         (sample_lines ++ [infinite_year_line])
  /\ ~ drops_without_error sample_parse sample_int [text_year_line].
Proof.
  split; [reflexivity|]. split; [reflexivity|].
  split; intros [base [H _]]; discriminate H.
Qed.

(** C2, amended.  The loader returns exactly when every line with no missing
    cell has a year that line 11 can convert (a finite number, or text that
    is a whole number), and raises [ValueError] otherwise.  When it returns,
    every row of its table comes from a line with no missing cell, carries
    as scores the numbers that the line's two score cells denote, and has a
    year from 2000 to 2022; a line with these properties gives a row, under
    its own label, and every other line is dropped without an error.  The
    labels of the table are distinct. *)
Theorem loader_base_table
  (parse_number : string -> option Q) (parse_int : string -> option Z)
  (lines : list RawRecord) :
  ((exists base, loader parse_number parse_int lines = Ok base)
   <-> forall i r c,
         nth_error lines i = Some r -> present r = Some c ->
         convertible parse_int (Year_of_Release c))
  /\ ((forall base, loader parse_number parse_int lines <> Ok base) ->
      loader parse_number parse_int lines = Raise ValueError)
  /\ forall base,
       loader parse_number parse_int lines = Ok base ->
       unique_index base
       /\ (forall i g,
             In (i, g) base ->
             (2000 <= Year_of_Release g <= 2022)%Z
             /\ exists r c,
                  nth_error lines i = Some r
                  /\ present r = Some c
                  /\ to_numeric_coerce parse_number (Critic_Score c)
                     = Some (Critic_Score g)
                  /\ to_numeric_coerce parse_number (User_Score c)
                     = Some (User_Score g)
                  /\ astype_int parse_int (Year_of_Release c)
                     = Ok (Year_of_Release g)
                  /\ Name g = Name c /\ Platform g = Platform c
                  /\ Genre g = Genre c /\ Rating g = Rating c)
       /\ (forall i r,
             nth_error lines i = Some r ->
             ((exists g, In (i, g) base)
              <-> exists c y cs us,
                    present r = Some c
                    /\ astype_int parse_int (Year_of_Release c) = Ok y
                    /\ to_numeric_coerce parse_number (Critic_Score c)
                       = Some cs
                    /\ to_numeric_coerce parse_number (User_Score c) = Some us
                    /\ (2000 <= y <= 2022)%Z)).
Proof.
  assert (Hc : years_convert parse_int (read_csv lines) = true
               <-> forall i r c,
                     nth_error lines i = Some r -> present r = Some c ->
                     convertible parse_int (Year_of_Release c)).
  { rewrite years_convert_spec. split; intros H i r c Hr.
    - apply (H i r c). now apply read_csv_In.
    - apply (H i r c). now apply read_csv_In. }
  split; [|split].
  - rewrite <- Hc. unfold loader. rewrite prepare_cleaned.
    destruct (years_convert parse_int (read_csv lines)); split.
    + reflexivity.
    + eauto.
    + intros [base H]. discriminate.
    + discriminate.
  - unfold loader. rewrite prepare_cleaned.
    destruct (years_convert parse_int (read_csv lines)); [|reflexivity].
    intros H. exfalso. eapply H. reflexivity.
  - intros base Hl. apply loader_Ok in Hl. destruct Hl as [_ ->].
    split; [apply cleaned_unique_index, read_csv_unique_index|].
    split.
    + intros i g H. apply cleaned_In in H. destruct H as [r [Hr Hcl]].
      apply read_csv_In in Hr. apply clean_Some in Hcl.
      destruct Hcl as [c [H1 [H2 [H3 [H4 [H5 [H6 [H7 [H8 [H9 _]]]]]]]]]].
      split; [exact H5|]. exists r, c. repeat split; assumption.
    + intros i r Hr. split.
      * intros [g H]. apply cleaned_In in H. destruct H as [r' [Hr' Hcl]].
        apply read_csv_In in Hr'. assert (r' = r) by congruence. subst r'.
        apply clean_Some in Hcl.
        destruct Hcl as [c [H1 [H2 [H3 [H4 [H5 _]]]]]].
        exists c, (Year_of_Release g), (Critic_Score g), (User_Score g). auto.
      * intros [c [y [cs [us [H1 [H2 [H3 [H4 H5]]]]]]]].
        exists (with_Critic cs (with_User us (with_Year y c))).
        apply cleaned_In. exists r. split; [now apply read_csv_In|].
        apply clean_Some. exists c. simpl. repeat split; tauto.
Qed.

(** ** The year range the callback receives *)

Lemma rbind_ok {A : Type} (x : result A) : rbind x (fun d => Ok d) = x.
Proof. now destruct x. Qed.

(** Steps 2 and 3 never raise; what happens next depends on the length of
    [years] alone. *)
Lemma select_by_years (base : DataFrame) platforms genres years :
  select base platforms genres years
  = match years with
    | [] => Ok (restrict_genre genres (restrict_platform platforms base))
    | [_] => Raise IndexError
    | lo :: hi :: _ =>
        loc_bool (restrict_genre genres (restrict_platform platforms base))
                 (year_mask base lo hi)
    end.
Proof.
  unfold select. rewrite !len_zero.
  destruct platforms as [|p ps]; destruct genres as [|g gs]; simpl;
    rewrite ?loc_bool_column; simpl; rewrite ?loc_bool_column; simpl;
    destruct years as [|a [|b rest]]; simpl;
    rewrite ?rbind_ok; reflexivity.
Qed.

Lemma select_two_years (base : DataFrame) platforms genres lo hi rest :
  select base platforms genres (lo :: hi :: rest)
  = select base platforms genres [lo; hi].
Proof.
  rewrite !select_by_years. reflexivity.
Qed.

(** X1.  On a table with distinct labels the callback raises exactly when
    the year list has one element, and then it raises [IndexError]
    ([years[1]], line 181); on every other year list it returns. *)
Theorem callback_raises_on_one_year_only
  (base : DataFrame) (platforms genres : list string) (years : list Z) :
  unique_index base ->
  (List.length years = 1 ->
   engine base platforms genres years = Raise IndexError)
  /\ (List.length years <> 1 ->
      exists out, engine base platforms genres years = Ok out).
Proof.
  intros Hnd. rewrite engine_select. split.
  - destruct years as [|y [|z rest]]; simpl; intros H; try discriminate.
    rewrite select_by_years. reflexivity.
  - destruct years as [|lo [|hi rest]]; simpl; intros H.
    + rewrite select_no_years. simpl. eauto.
    + congruence.
    + rewrite select_two_years, (select_years _ _ _ _ Hnd). simpl. eauto.
Qed.

Lemma callback_raises_on_one_year_only_witness :
  (List.length [2010%Z] = 1 ->
   engine (two_games "E" "T") ["PS4"] [] [2010%Z] = Raise IndexError)
  /\ (List.length [2010%Z] <> 1 ->
      exists out, engine (two_games "E" "T") ["PS4"] [] [2010%Z] = Ok out).
Proof.
  apply (@callback_raises_on_one_year_only (two_games "E" "T")).
  distinct_labels.
Defined.

(** X2.  The callback reads [years[0]] and [years[1]] only: whatever
    follows the second element changes neither the filtered frame nor the
    result. *)
Theorem years_beyond_the_second_are_ignored
  (base : DataFrame) (platforms genres : list string) (lo hi : Z)
  (rest : list Z) :
  engine base platforms genres (lo :: hi :: rest)
  = engine base platforms genres [lo; hi]
  /\ filtered base platforms genres (lo :: hi :: rest)
     = filtered base platforms genres [lo; hi].
Proof.
  rewrite !engine_select, !filtered_select, select_two_years. auto.
Qed.

(** X3.  A year range whose upper end is below its lower end keeps no row:
    the callback returns the count 0, NaN for both means and empty figures. *)
Theorem inverted_year_range_selects_nothing
  (base : DataFrame) (platforms genres : list string) (lo hi : Z) :
  unique_index base ->
  (hi < lo)%Z ->
  filtered base platforms genres [lo; hi] = Ok []
  /\ engine base platforms genres [lo; hi]
     = Ok {| count_games := 0; avg_players := NaN; avg_critics := NaN;
             stacked_by_year := []; scatter_by_genre := [];
             graph_critics_by_genre := [] |}.
Proof.
  intros Hnd Hlt.
  assert (Hf : filtered base platforms genres [lo; hi] = Ok []).
  { rewrite (filtered_years _ _ _ _ Hnd), restrict_selected. f_equal.
    apply filter_none. intros [i r] _. unfold selected. simpl.
    assert (W : within lo hi r = false).
    { unfold within. apply andb_false_iff.
      destruct (Z.leb_spec lo (Year_of_Release r)); [right | now left].
      apply Z.leb_gt. lia. }
    rewrite W. apply andb_false_r. }
  split; [exact Hf|]. rewrite engine_filtered, Hf. reflexivity.
Qed.

Lemma inverted_year_range_selects_nothing_witness :
  filtered (two_games "E" "T") [] [] [2015; 2010]%Z = Ok []
  /\ engine (two_games "E" "T") [] [] [2015; 2010]%Z
     = Ok {| count_games := 0; avg_players := NaN; avg_critics := NaN;
             stacked_by_year := []; scatter_by_genre := [];
             graph_critics_by_genre := [] |}.
Proof.
  apply (@inverted_year_range_selects_nothing
           (two_games "E" "T") [] [] 2015%Z 2010%Z).
  - distinct_labels.
  - lia.
Defined.

(** ** Selections as sets *)

Lemma isin_In (vals : list string) (x : string) :
  isin vals x = true <-> In x vals.
Proof.
  unfold isin. rewrite existsb_exists. split.
  - intros [y [Hy E]]. apply String.eqb_eq in E. now subst.
  - intros H. exists x. split; [exact H | apply String.eqb_refl].
Qed.

Lemma isin_same_members (a b : list string) (x : string) :
  (forall y, In y a <-> In y b) -> isin a x = isin b x.
Proof.
  intros H. destruct (isin a x) eqn:Ea; destruct (isin b x) eqn:Eb;
    try reflexivity.
  - apply isin_In in Ea. apply H in Ea. apply isin_In in Ea. congruence.
  - apply isin_In in Eb. apply H in Eb. apply isin_In in Eb. congruence.
Qed.

Lemma restrict_platform_same_members (a b : list string) (d : DataFrame) :
  (forall y, In y a <-> In y b) ->
  restrict_platform a d = restrict_platform b d.
Proof.
  intros H. destruct a as [|x a]; destruct b as [|y b];
    unfold restrict_platform, restrict_genre.
  - reflexivity.
  - exfalso. apply (proj2 (H y)). now left.
  - exfalso. apply (proj1 (H x)). now left.
  - apply filter_ext. intros [i r]. now apply isin_same_members.
Qed.

Lemma restrict_genre_same_members (a b : list string) (d : DataFrame) :
  (forall y, In y a <-> In y b) ->
  restrict_genre a d = restrict_genre b d.
Proof.
  intros H. destruct a as [|x a]; destruct b as [|y b];
    unfold restrict_platform, restrict_genre.
  - reflexivity.
  - exfalso. apply (proj2 (H y)). now left.
  - exfalso. apply (proj1 (H x)). now left.
  - apply filter_ext. intros [i r]. now apply isin_same_members.
Qed.

Lemma select_same_members (base : DataFrame) p p' g g' years :
  (forall x, In x p <-> In x p') ->
  (forall x, In x g <-> In x g') ->
  select base p g years = select base p' g' years.
Proof.
  intros Hp Hg. rewrite !select_by_years.
  rewrite (@restrict_platform_same_members p p' base Hp).
  rewrite (@restrict_genre_same_members g g' _ Hg).
  reflexivity.
Qed.

(** X4.  The platform and genre selections act as sets: two selections with
    the same members, in any order and with any repetitions, give the same
    result (a value or an exception) on every table and year list. *)
Theorem selection_order_and_repeats_do_not_matter
  (base : DataFrame) (platforms platforms' genres genres' : list string)
  (years : list Z) :
  (forall x, In x platforms <-> In x platforms') ->
  (forall x, In x genres <-> In x genres') ->
  engine base platforms genres years = engine base platforms' genres' years.
Proof.
  intros Hp Hg. rewrite !engine_select.
  now rewrite (@select_same_members base _ _ _ _ years Hp Hg).
Qed.

Lemma selection_order_and_repeats_do_not_matter_witness :
  engine (two_games "E" "T") ["PS4"; "PC"] ["RPG"] [2000; 2022]%Z
  = engine (two_games "E" "T") ["PC"; "PS4"; "PC"] ["RPG"; "RPG"]
      [2000; 2022]%Z.
Proof.
  apply (@selection_order_and_repeats_do_not_matter (two_games "E" "T")).
  - simpl. intuition.
  - simpl. intuition.
Defined.


(** ** The options of the dropdowns *)

Lemma in_frame_values {R : Type} (i : label) (r : R) (d : Frame R) :
  In (i, r) d -> In r (values d).
Proof.
  intros H. apply in_values. now exists i.
Qed.

Lemma platform_options_In (d : DataFrame) (p : string) :
  In p (platform_options d) <-> exists i r, In (i, r) d /\ Platform r = p.
Proof.
  unfold platform_options.
  rewrite (@unique_In string String.eqb String.eqb_eq), in_map_iff. split.
  - intros [r [E H]]. apply in_values in H. destruct H as [i H]. eauto.
  - intros [i [r [H E]]]. exists r. split; [exact E|].
    eapply in_frame_values; eauto.
Qed.

Lemma genre_options_In (d : DataFrame) (g : string) :
  In g (genre_options d) <-> exists i r, In (i, r) d /\ Genre r = g.
Proof.
  unfold genre_options.
  rewrite (@unique_In string String.eqb String.eqb_eq), in_map_iff. split.
  - intros [r [E H]]. apply in_values in H. destruct H as [i H]. eauto.
  - intros [i [r [H E]]]. exists r. split; [exact E|].
    eapply in_frame_values; eauto.
Qed.

Lemma restrict_platform_all_options (base d : DataFrame) :
  incl d base -> restrict_platform (platform_options base) d = d.
Proof.
  intros Hi. unfold restrict_platform.
  destruct (platform_options base) as [|p ps] eqn:E; [reflexivity|].
  rewrite <- E. apply filter_all. intros [i r] Hin. simpl.
  apply isin_In. apply platform_options_In. exists i, r. auto.
Qed.

Lemma restrict_genre_all_options (base d : DataFrame) :
  incl d base -> restrict_genre (genre_options base) d = d.
Proof.
  intros Hi. unfold restrict_genre.
  destruct (genre_options base) as [|p ps] eqn:E; [reflexivity|].
  rewrite <- E. apply filter_all. intros [i r] Hin. simpl.
  apply isin_In. apply genre_options_In. exists i, r. auto.
Qed.

(** X5.  Choosing every option of the platform dropdown gives the result of
    choosing none, and so does choosing every option of the genre dropdown,
    whatever the other filters are. *)
Theorem all_options_is_no_selection
  (base : DataFrame) (platforms genres : list string) (years : list Z) :
  engine base (platform_options base) genres years
  = engine base [] genres years
  /\ engine base platforms (genre_options base) years
     = engine base platforms [] years.
Proof.
  rewrite !engine_select, !select_by_years.
  rewrite (@restrict_platform_all_options base base (incl_refl base)).
  rewrite (@restrict_genre_all_options base
             (restrict_platform platforms base)
             (incl_restrict_platform platforms base)).
  split; reflexivity.
Qed.

Lemma unique_nonempty {A : Type} (eqb : A -> A -> bool) (l : list A) :
  l <> [] -> 1 <= List.length (unique eqb l).
Proof.
  destruct l as [|x l]; [congruence|]. intros _. simpl. lia.
Qed.

Lemma count_games_positive (d : DataFrame) :
  d <> [] -> 1 <= count_games (aggregate d).
Proof.
  intros H. simpl. unfold len. apply unique_nonempty.
  destruct d; [congruence | discriminate].
Qed.

(** X6.  Every option the dropdowns offer matches a game: with the slider
    at its initial value, the full span of the years, the selection of one
    platform option alone, or of one genre option alone, gives a count of at
    least one. *)
Theorem every_option_matches_a_game
  (base : DataFrame) (lo hi : Z) (x : string) :
  unique_index base ->
  min_year base = Some lo ->
  max_year base = Some hi ->
  (In x (platform_options base) ->
   exists out, engine base [x] [] [lo; hi] = Ok out /\ 1 <= count_games out)
  /\ (In x (genre_options base) ->
      exists out, engine base [] [x] [lo; hi] = Ok out
                  /\ 1 <= count_games out).
Proof.
  intros Hnd Hlo Hhi.
  assert (Hw : forall i r, In (i, r) base -> within lo hi r = true).
  { intros i r H. apply within_spec. split.
    - eapply min_year_le; eauto.
    - eapply max_year_ge; eauto. }
  split; intros Hx.
  - apply platform_options_In in Hx. destruct Hx as [i [r [Hin E]]].
    exists (aggregate (restrict_year lo hi
                         (restrict_genre [] (restrict_platform [x] base)))).
    rewrite engine_filtered, (filtered_years _ _ _ _ Hnd).
    split; [reflexivity|]. apply count_games_positive.
    rewrite restrict_selected. intros Hempty.
    assert (Hr : In (i, r) (filter (fun ir => selected [x] [] lo hi (snd ir))
                              base)).
    { apply filter_In. split; [exact Hin|]. unfold selected. simpl.
      rewrite (Hw i r Hin), E, String.eqb_refl. reflexivity. }
    rewrite Hempty in Hr. contradiction.
  - apply genre_options_In in Hx. destruct Hx as [i [r [Hin E]]].
    exists (aggregate (restrict_year lo hi
                         (restrict_genre [x] (restrict_platform [] base)))).
    rewrite engine_filtered, (filtered_years _ _ _ _ Hnd).
    split; [reflexivity|]. apply count_games_positive.
    rewrite restrict_selected. intros Hempty.
    assert (Hr : In (i, r) (filter (fun ir => selected [] [x] lo hi (snd ir))
                              base)).
    { apply filter_In. split; [exact Hin|]. unfold selected. simpl.
      rewrite (Hw i r Hin), E, String.eqb_refl. reflexivity. }
    rewrite Hempty in Hr. contradiction.
Qed.

Lemma every_option_matches_a_game_witness :
  (In "PC" (platform_options (two_games "E" "T")) ->
   exists out, engine (two_games "E" "T") ["PC"] [] [2010; 2015]%Z = Ok out
               /\ 1 <= count_games out)
  /\ (In "PC" (genre_options (two_games "E" "T")) ->
      exists out, engine (two_games "E" "T") [] ["PC"] [2010; 2015]%Z = Ok out
                  /\ 1 <= count_games out).
Proof.
  apply (@every_option_matches_a_game (two_games "E" "T") 2010%Z 2015%Z "PC").
  - distinct_labels.
  - reflexivity.
  - reflexivity.
Defined.

(** ** Widening a selection *)

Lemma filter_length_mono {A : Type} (f g : A -> bool) (l : list A) :
  (forall x, In x l -> f x = true -> g x = true) ->
  List.length (filter f l) <= List.length (filter g l).
Proof.
  induction l as [|x l IH]; simpl; intros H; [lia|].
  assert (IH' : List.length (filter f l) <= List.length (filter g l))
    by (apply IH; intros y Hy; apply H; now right).
  destruct (f x) eqn:Ef.
  - rewrite (H x (or_introl eq_refl) Ef). simpl. lia.
  - destruct (g x); simpl; lia.
Qed.

Lemma wider_isin (a b : list string) (x : string) :
  wider a b ->
  match a with [] => true | _ :: _ => isin a x end = true ->
  match b with [] => true | _ :: _ => isin b x end = true.
Proof.
  intros [-> | [Ha Hi]] H; [reflexivity|].
  destruct a as [|y a]; [congruence|].
  apply isin_In in H. apply Hi in H.
  destruct b as [|z b]; [reflexivity | now apply isin_In].
Qed.

(** X7.  Widening a selection only adds rows.  A selection is at least as
    wide as another when its platforms (and its genres) are all of them, the
    empty list, or include the other's non-empty list, and its year range
    contains the other's.  Then every row the narrower one keeps is kept by
    the wider one, which has at least as many rows and distinct names. *)
Theorem widening_a_selection_only_adds_rows
  (base : DataFrame) (platforms platforms' genres genres' : list string)
  (lo hi lo' hi' : Z) :
  unique_index base ->
  wider platforms platforms' ->
  wider genres genres' ->
  (lo' <= lo)%Z -> (hi <= hi')%Z ->
  exists sub sub',
    filtered base platforms genres [lo; hi] = Ok sub
    /\ filtered base platforms' genres' [lo'; hi'] = Ok sub'
    /\ incl sub sub'
    /\ List.length sub <= List.length sub'
    /\ count_games (aggregate sub) <= count_games (aggregate sub').
Proof.
  intros Hnd Hp Hg Hlo Hhi.
  assert (Hs : forall r, selected platforms genres lo hi r = true ->
                         selected platforms' genres' lo' hi' r = true).
  { intros r. unfold selected. rewrite !andb_true_iff.
    intros [[H1 H2] H3]. split; [split|].
    - exact (@wider_isin _ _ _ Hp H1).
    - exact (@wider_isin _ _ _ Hg H2).
    - apply within_spec in H3. apply within_spec. lia. }
  exists (filter (fun ir => selected platforms genres lo hi (snd ir)) base),
         (filter (fun ir => selected platforms' genres' lo' hi' (snd ir)) base).
  rewrite !(filtered_years _ _ _ _ Hnd), !restrict_selected.
  split; [reflexivity|]. split; [reflexivity|].
  assert (Hi : incl (filter (fun ir => selected platforms genres lo hi (snd ir))
                       base)
                    (filter (fun ir => selected platforms' genres' lo' hi'
                                         (snd ir)) base)).
  { intros x Hx. apply filter_In in Hx. apply filter_In.
    split; [tauto|]. apply Hs. tauto. }
  split; [exact Hi|]. split.
  - apply filter_length_mono. intros x _. apply Hs.
  - simpl. unfold len. apply (unique_length_incl String.eqb String.eqb_eq).
    apply incl_map. unfold values. now apply incl_map.
Qed.

Lemma widening_a_selection_only_adds_rows_witness :
  exists sub sub',
    filtered (two_games "E" "T") ["PS4"] ["Action"] [2005; 2012]%Z = Ok sub
    /\ filtered (two_games "E" "T") ["PS4"; "PC"] [] [2000; 2022]%Z = Ok sub'
    /\ incl sub sub'
    /\ List.length sub <= List.length sub'
    /\ count_games (aggregate sub) <= count_games (aggregate sub').
Proof.
  apply (@widening_a_selection_only_adds_rows (two_games "E" "T")).
  - distinct_labels.
  - right. split; [discriminate|]. intros x [<- | []]. now left.
  - now left.
  - lia.
  - lia.
Defined.


(** ** The counts by platform and year *)

Lemma key_eqb_eq (a b : string * Z) : key_eqb a b = true <-> a = b.
Proof.
  destruct a as [p y], b as [q z]. unfold key_eqb. simpl.
  rewrite andb_true_iff, String.eqb_eq, Z.eqb_eq. split.
  - intros [-> ->]. reflexivity.
  - intros E. inversion E. auto.
Qed.

Lemma key_leb_total (a b : string * Z) :
  key_leb a b = true \/ key_leb b a = true.
Proof.
  destruct a as [p y], b as [q z]. unfold key_leb. simpl.
  rewrite (String.eqb_sym q p).
  destruct (String.eqb p q).
  - rewrite !Z.leb_le. lia.
  - apply String.leb_total.
Qed.

Lemma count_platform_year (p : string) (y : Z) (d : DataFrame) :
  count key_eqb (p, y) (map platform_year (values d)) = rows_of_group p y d.
Proof.
  unfold count, rows_of_group, values.
  induction d as [|[i r] d IH]; simpl; [reflexivity|].
  unfold key_eqb at 1. simpl.
  rewrite (String.eqb_sym p (Platform r)), (Z.eqb_sym y (Year_of_Release r)).
  destruct ((Platform r =? p)%string && (Year_of_Release r =? y)%Z); simpl;
    now rewrite IH.
Qed.

Lemma filter_length_positive {A : Type} (f : A -> bool) (l : list A) :
  1 <= List.length (filter f l) <-> exists x, In x l /\ f x = true.
Proof.
  split.
  - destruct (filter f l) as [|x t] eqn:E; simpl; [lia|]. intros _.
    exists x. apply filter_In. rewrite E. now left.
  - intros [x Hx]. apply filter_In in Hx.
    destruct (filter f l); [contradiction | simpl; lia].
Qed.

Lemma rows_of_group_positive (p : string) (y : Z) (d : DataFrame) :
  1 <= rows_of_group p y d
  <-> exists i r, In (i, r) d /\ Platform r = p /\ Year_of_Release r = y.
Proof.
  unfold rows_of_group. rewrite filter_length_positive. split.
  - intros [[i r] [H E]]. simpl in E. apply andb_true_iff in E.
    destruct E as [E1 E2]. apply String.eqb_eq in E1. apply Z.eqb_eq in E2.
    eauto.
  - intros [i [r [H [E1 E2]]]]. exists (i, r). split; [exact H|]. simpl.
    subst. now rewrite String.eqb_refl, Z.eqb_refl.
Qed.

Lemma groupby_count_In (d : DataFrame) (p : string) (y : Z) (n : nat) :
  In (p, y, n) (groupby_count d)
  <-> n = rows_of_group p y d /\ 1 <= n.
Proof.
  unfold groupby_count. rewrite in_map_iff. split.
  - intros [[q z] [E H]]. simpl in E. inversion E; subst; clear E.
    apply (proj1 (sort_In key_leb _ _)) in H.
    apply (proj1 (@unique_In _ key_eqb key_eqb_eq _ _)) in H.
    rewrite count_platform_year. split; [reflexivity|].
    apply rows_of_group_positive.
    apply in_map_iff in H. destruct H as [r [E H]].
    apply in_values in H. destruct H as [i H].
    unfold platform_year in E. inversion E. eauto.
  - intros [-> H]. apply rows_of_group_positive in H.
    destruct H as [i [r [H [E1 E2]]]].
    exists (p, y). simpl. rewrite count_platform_year. split; [reflexivity|].
    apply (proj2 (sort_In key_leb _ _)).
    apply (proj2 (@unique_In _ key_eqb key_eqb_eq _ _)).
    apply in_map_iff. exists r. split.
    + unfold platform_year. now subst.
    + eapply in_frame_values; eauto.
Qed.

Lemma groupby_count_keys (d : DataFrame) :
  map fst (groupby_count d)
  = sort key_leb (unique key_eqb (map platform_year (values d))).
Proof.
  unfold groupby_count. rewrite map_map. simpl.
  rewrite <- (map_id (sort key_leb _)) at 2.
  apply map_ext. intros [p y]. reflexivity.
Qed.

Lemma Sorted_strict {A : Type} (R : A -> A -> Prop) (l : list A) :
  Sorted R l -> NoDup l -> Sorted (fun a b => R a b /\ a <> b) l.
Proof.
  induction 1 as [|x l Hs IH Hh]; intros Hnd; [constructor|].
  inversion Hnd as [|? ? Hx Hl]; subst. constructor; [now apply IH|].
  destruct Hh as [|y l Hr]; constructor. split; [exact Hr|].
  intros ->. apply Hx. now left.
Qed.

Lemma list_sum_indicator (u : list (string * Z)) (x : string * Z) :
  NoDup u -> In x u ->
  list_sum (map (fun k => if key_eqb k x then 1 else 0) u) = 1.
Proof.
  induction u as [|k u IH]; simpl; intros Hnd Hin; [contradiction|].
  inversion Hnd as [|? ? Hk Hu]; subst.
  destruct (key_eqb k x) eqn:E.
  - apply key_eqb_eq in E. subst k.
    assert (Z0 : list_sum (map (fun k => if key_eqb k x then 1 else 0) u) = 0).
    { clear IH Hnd Hin Hu. induction u as [|k u IH]; simpl; [reflexivity|].
      destruct (key_eqb k x) eqn:E.
      - apply key_eqb_eq in E. subst. exfalso. apply Hk. now left.
      - apply IH. intros H. apply Hk. now right. }
    lia.
  - destruct Hin as [-> | Hin].
    + assert (T : key_eqb x x = true) by now apply key_eqb_eq. congruence.
    + rewrite IH; auto.
Qed.

Lemma list_sum_counts (u l : list (string * Z)) :
  NoDup u -> incl l u ->
  list_sum (map (fun k => count key_eqb k l) u) = List.length l.
Proof.
  intros Hnd. induction l as [|x l IH]; intros Hi.
  - unfold count. simpl. clear Hnd Hi.
    induction u as [|k u IHu]; simpl; [reflexivity | exact IHu].
  - assert (E : forall v,
               list_sum (map (fun k => count key_eqb k (x :: l)) v)
               = list_sum (map (fun k => if key_eqb k x then 1 else 0) v)
                 + list_sum (map (fun k => count key_eqb k l) v)).
    { induction v as [|k v IHv]; simpl; [reflexivity|].
      rewrite IHv. unfold count. simpl. destruct (key_eqb k x); simpl; lia. }
    rewrite E, list_sum_indicator, IH; simpl; auto.
    + intros y Hy. apply Hi. now right.
    + apply Hi. now left.
Qed.

Lemma groupby_count_sum (d : DataFrame) :
  list_sum (map snd (groupby_count d)) = List.length d.
Proof.
  unfold groupby_count. rewrite map_map. simpl.
  rewrite list_sum_counts.
  - unfold values. now rewrite !length_map.
  - apply sort_NoDup, unique_NoDup, key_eqb_eq.
  - intros k Hk. apply (proj2 (sort_In key_leb _ _)).
    exact (proj2 (@unique_In _ key_eqb key_eqb_eq _ _) Hk).
Qed.

(** X8.  The data of the first figure has a line (platform, year, n)
    exactly when n is the number of rows of the filtered frame with that
    platform and that year and n is at least 1: no group is empty, and each
    pair appears with one count only. *)
Theorem stacked_by_year_counts
  (base : DataFrame) (platforms genres : list string) (lo hi : Z) :
  unique_index base ->
  exists sub out,
    filtered base platforms genres [lo; hi] = Ok sub
    /\ engine base platforms genres [lo; hi] = Ok out
    /\ forall p y n,
         In (p, y, n) (stacked_by_year out)
         <-> n = rows_of_group p y sub /\ 1 <= n.
Proof.
  intros Hnd.
  exists (restrict_year lo hi
            (restrict_genre genres (restrict_platform platforms base))).
  eexists. rewrite engine_filtered, (filtered_years _ _ _ _ Hnd).
  split; [reflexivity|]. split; [reflexivity|].
  intros p y n. simpl. apply groupby_count_In.
Qed.

Lemma stacked_by_year_counts_witness :
  exists sub out,
    filtered (two_games "E" "T") [] [] [2000; 2022]%Z = Ok sub
    /\ engine (two_games "E" "T") [] [] [2000; 2022]%Z = Ok out
    /\ forall p y n,
         In (p, y, n) (stacked_by_year out)
         <-> n = rows_of_group p y sub /\ 1 <= n.
Proof.
  apply (@stacked_by_year_counts (two_games "E" "T") [] [] 2000%Z 2022%Z).
  distinct_labels.
Defined.

(** X9.  The lines of the first figure's data come in strictly increasing
    order of (platform, year): by platform, and by year within a platform;
    no pair is repeated. *)
Theorem stacked_by_year_is_sorted
  (base : DataFrame) (platforms genres : list string) (lo hi : Z) :
  unique_index base ->
  exists out,
    engine base platforms genres [lo; hi] = Ok out
    /\ Sorted key_lt (map fst (stacked_by_year out))
    /\ NoDup (map fst (stacked_by_year out)).
Proof.
  intros Hnd. eexists.
  rewrite engine_filtered, (filtered_years _ _ _ _ Hnd).
  split; [reflexivity|]. simpl. rewrite groupby_count_keys.
  assert (Hn : forall l, NoDup (sort key_leb (unique key_eqb l)))
    by (intros l; apply sort_NoDup, unique_NoDup, key_eqb_eq).
  split; [|apply Hn].
  apply Sorted_strict; [|apply Hn].
  apply (sort_Sorted key_leb key_leb_total).
Qed.

Lemma stacked_by_year_is_sorted_witness :
  exists out,
    engine (two_games "E" "T") [] [] [2000; 2022]%Z = Ok out
    /\ Sorted key_lt (map fst (stacked_by_year out))
    /\ NoDup (map fst (stacked_by_year out)).
Proof.
  apply (@stacked_by_year_is_sorted (two_games "E" "T") [] [] 2000%Z 2022%Z).
  distinct_labels.
Defined.

(** X10.  The three figures and the count agree on the size of the
    filtered frame: the counts of the first figure add up to its number of
    rows, the second figure has one point per row, and the number of
    distinct names is at most the number of rows. *)
Theorem outputs_agree_on_the_number_of_rows
  (base : DataFrame) (platforms genres : list string) (lo hi : Z) :
  unique_index base ->
  exists sub out,
    filtered base platforms genres [lo; hi] = Ok sub
    /\ engine base platforms genres [lo; hi] = Ok out
    /\ list_sum (map snd (stacked_by_year out)) = List.length sub
    /\ List.length (scatter_by_genre out) = List.length sub
    /\ count_games out <= List.length sub.
Proof.
  intros Hnd.
  exists (restrict_year lo hi
            (restrict_genre genres (restrict_platform platforms base))).
  eexists. rewrite engine_filtered, (filtered_years _ _ _ _ Hnd).
  split; [reflexivity|]. split; [reflexivity|]. simpl.
  split; [apply groupby_count_sum|].
  split; [unfold values; now rewrite !length_map|].
  unfold len.
  match goal with
  | |- List.length (unique _ ?l) <= List.length ?d =>
      replace (List.length d) with (List.length l)
        by (unfold values; now rewrite !length_map);
      generalize l
  end.
  intros names. induction names as [|x l IH]; simpl; [lia|].
  pose proof (filter_length_le (fun y => negb (x =? y)%string)
                (unique String.eqb l)). lia.
Qed.

Lemma outputs_agree_on_the_number_of_rows_witness :
  exists sub out,
    filtered (two_games "E" "T") [] [] [2000; 2022]%Z = Ok sub
    /\ engine (two_games "E" "T") [] [] [2000; 2022]%Z = Ok out
    /\ list_sum (map snd (stacked_by_year out)) = List.length sub
    /\ List.length (scatter_by_genre out) = List.length sub
    /\ count_games out <= List.length sub.
Proof.
  apply (@outputs_agree_on_the_number_of_rows
           (two_games "E" "T") [] [] 2000%Z 2022%Z).
  distinct_labels.
Defined.


(** ** What the figures show *)

Lemma selected_spec platforms genres lo hi (r : GameRecord) :
  selected platforms genres lo hi r = true
  <-> (platforms = [] \/ In (Platform r) platforms)
      /\ (genres = [] \/ In (Genre r) genres)
      /\ (lo <= Year_of_Release r <= hi)%Z.
Proof.
  unfold selected. rewrite !andb_true_iff, within_spec.
  assert (H : forall l x,
             match l with [] => true | _ :: _ => isin l x end = true
             <-> l = [] \/ In x l).
  { intros l x. destruct l as [|y l].
    - split; auto.
    - rewrite isin_In. split; [auto|]. intros [E | E]; [discriminate | exact E]. }
  rewrite !H. tauto.
Qed.

(** X11.  The three figures show only what the selection admits: every
    platform of the first figure is a selected one when platforms are
    selected, every year of it lies in the year range, and every genre of
    the second and third figures is a selected one when genres are
    selected. *)
Theorem figures_respect_the_selection
  (base : DataFrame) (platforms genres : list string) (lo hi : Z) :
  unique_index base ->
  exists out,
    engine base platforms genres [lo; hi] = Ok out
    /\ (forall p y n,
          In (p, y, n) (stacked_by_year out) ->
          (platforms = [] \/ In p platforms) /\ (lo <= y <= hi)%Z)
    /\ (forall u c g,
          In (u, c, g) (scatter_by_genre out) ->
          genres = [] \/ In g genres)
    /\ (forall g v,
          In (g, v) (graph_critics_by_genre out) ->
          genres = [] \/ In g genres).
Proof.
  intros Hnd. eexists.
  rewrite engine_filtered, (filtered_years _ _ _ _ Hnd), restrict_selected.
  split; [reflexivity|]. simpl.
  set (sub := filter (fun ir => selected platforms genres lo hi (snd ir)) base).
  assert (Hs : forall i r, In (i, r) sub ->
                 selected platforms genres lo hi r = true).
  { intros i r H. apply filter_In in H. tauto. }
  split; [|split].
  - intros p y n H. apply groupby_count_In in H. destruct H as [-> H].
    apply rows_of_group_positive in H. destruct H as [i [r [H [<- <-]]]].
    apply Hs, selected_spec in H. tauto.
  - intros u c g H. apply in_map_iff in H. destruct H as [r [E H]].
    inversion E; subst; clear E. apply in_values in H. destruct H as [i H].
    apply Hs, selected_spec in H. tauto.
  - intros g v H. apply groupby_mode_In in H. destruct H as [H _].
    apply in_map_iff in H. destruct H as [r [<- H]].
    apply in_values in H. destruct H as [i H].
    apply Hs, selected_spec in H. tauto.
Qed.

Lemma figures_respect_the_selection_witness :
  exists out,
    engine (two_games "E" "T") ["PC"] ["RPG"] [2000; 2022]%Z = Ok out
    /\ (forall p y n,
          In (p, y, n) (stacked_by_year out) ->
          (["PC"] = [] \/ In p ["PC"]) /\ (2000 <= y <= 2022)%Z)
    /\ (forall u c g,
          In (u, c, g) (scatter_by_genre out) ->
          ["RPG"] = [] \/ In g ["RPG"])
    /\ (forall g v,
          In (g, v) (graph_critics_by_genre out) ->
          ["RPG"] = [] \/ In g ["RPG"]).
Proof.
  apply (@figures_respect_the_selection
           (two_games "E" "T") ["PC"] ["RPG"] 2000%Z 2022%Z).
  distinct_labels.
Defined.

Lemma mode_nonempty (l : list string) : l <> [] -> mode l <> [].
Proof.
  intros Hl Hm.
  assert (H : exists y, In y (mode l)).
  { unfold mode.
    destruct (max_of_counts (fun y => count String.eqb y l)
                (unique String.eqb l)) as [_ Hex].
    destruct Hex as [y [Hy E]].
    { destruct l as [|x l]; [congruence | discriminate]. }
    exists y. apply (proj2 (sort_In String.leb _ _)). apply filter_In.
    split; [exact Hy | apply Nat.eqb_eq; exact E]. }
  destruct H as [y Hy]. rewrite Hm in Hy. contradiction.
Qed.

Lemma ratings_of_nonempty (g : string) (d : DataFrame) :
  In g (map (@Genre Z Q Q) (values d)) -> ratings_of g d <> [].
Proof.
  intros H. apply in_map_iff in H. destruct H as [r [E H]].
  unfold ratings_of. intros Hn.
  assert (Hr : In (Rating r)
                 (map (@Rating Z Q Q)
                    (filter (fun r => (Genre r =? g)%string) (values d)))).
  { apply in_map. apply filter_In. split; [exact H|].
    now apply String.eqb_eq. }
  rewrite Hn in Hr. contradiction.
Qed.

Lemma string_leb_strict_sorted (l : list string) :
  NoDup l -> Sorted string_lt (sort String.leb l).
Proof.
  intros H. apply Sorted_strict.
  - apply (sort_Sorted String.leb String.leb_total).
  - now apply sort_NoDup.
Qed.

Lemma groupby_mode_keys (d : DataFrame) :
  map fst (groupby_mode d)
  = sort String.leb (unique String.eqb (map (@Genre Z Q Q) (values d))).
Proof.
  unfold groupby_mode. rewrite map_map. simpl. apply map_id.
Qed.

(** X12.  The data of the third figure lists the genres of the filtered
    frame in strictly increasing order, each once.  The value of a genre is
    never empty: it is one rating of the genre's rows, or an array of at
    least two of them. *)
Theorem graph_by_genre_lines
  (base : DataFrame) (platforms genres : list string) (lo hi : Z) :
  unique_index base ->
  exists sub out,
    filtered base platforms genres [lo; hi] = Ok sub
    /\ engine base platforms genres [lo; hi] = Ok out
    /\ Sorted string_lt (map fst (graph_critics_by_genre out))
    /\ forall g v,
         In (g, v) (graph_critics_by_genre out) ->
         (exists x, v = Scalar x /\ In x (ratings_of g sub))
         \/ (exists l, v = Array l /\ 2 <= List.length l
                       /\ forall x, In x l -> In x (ratings_of g sub)).
Proof.
  intros Hnd.
  exists (restrict_year lo hi
            (restrict_genre genres (restrict_platform platforms base))).
  eexists. rewrite engine_filtered, (filtered_years _ _ _ _ Hnd).
  split; [reflexivity|]. split; [reflexivity|]. simpl. split.
  - rewrite groupby_mode_keys. apply string_leb_strict_sorted.
    apply unique_NoDup, String.eqb_eq.
  - intros g v H. apply groupby_mode_In in H. destruct H as [Hg ->].
    pose proof (@mode_nonempty _ (@ratings_of_nonempty _ _ Hg)) as Hne.
    assert (Hin : forall x, In x (mode (ratings_of g
                     (restrict_year lo hi
                        (restrict_genre genres
                           (restrict_platform platforms base))))) ->
                  In x (ratings_of g
                     (restrict_year lo hi
                        (restrict_genre genres
                           (restrict_platform platforms base))))).
    { intros x Hx. apply mode_In in Hx. apply Hx. }
    destruct (mode _) as [|a [|b m]]; [congruence | |].
    + left. exists a. split; [reflexivity|]. apply Hin. now left.
    + right. exists (a :: b :: m). split; [reflexivity|].
      split; [simpl; lia | exact Hin].
Qed.

Lemma graph_by_genre_lines_witness :
  exists sub out,
    filtered tied_games [] [] [2000; 2022]%Z = Ok sub
    /\ engine tied_games [] [] [2000; 2022]%Z = Ok out
    /\ Sorted string_lt (map fst (graph_critics_by_genre out))
    /\ forall g v,
         In (g, v) (graph_critics_by_genre out) ->
         (exists x, v = Scalar x /\ In x (ratings_of g sub))
         \/ (exists l, v = Array l /\ 2 <= List.length l
                       /\ forall x, In x l -> In x (ratings_of g sub)).
Proof.
  apply (@graph_by_genre_lines tied_games [] [] 2000%Z 2022%Z).
  distinct_labels.
Defined.

(** ** The count and the means *)

(** X13.  The count is 0 exactly when the filtered frame is empty; on an
    empty frame both means are NaN, in every arithmetic in which the mean of
    an empty column is NaN and rounding NaN gives NaN, as they are in pandas
    and Python. *)
Theorem count_zero_iff_no_row
  (a : arithmetic) (base : DataFrame) (platforms genres : list string)
  (lo hi : Z) :
  series_mean a [] = NaN ->
  (forall n, py_round a NaN n = NaN) ->
  unique_index base ->
  exists sub out,
    filtered base platforms genres [lo; hi] = Ok sub
    /\ engine_with a base platforms genres [lo; hi] = Ok out
    /\ (count_games out = 0 <-> sub = [])
    /\ (sub = [] -> avg_players out = NaN /\ avg_critics out = NaN).
Proof.
  intros Hm Hr Hnd.
  exists (restrict_year lo hi
            (restrict_genre genres (restrict_platform platforms base))).
  eexists. rewrite engine_with_filtered, (filtered_years _ _ _ _ Hnd).
  split; [reflexivity|]. split; [reflexivity|]. simpl.
  set (sub := restrict_year lo hi _).
  split.
  - split.
    + intros H. destruct sub as [|x t]; [reflexivity|].
      pose proof (@count_games_positive (x :: t)) as P. simpl in P.
      simpl in H. unfold len in *. rewrite H in P.
      assert (1 <= 0) by (apply P; discriminate). lia.
    + intros ->. reflexivity.
  - intros ->. simpl. rewrite Hm, Hr. split; reflexivity.
Qed.

Lemma count_zero_iff_no_row_witness :
  exists sub out,
    filtered (two_games "E" "T") ["Wii"] [] [2000; 2022]%Z = Ok sub
    /\ engine_with exact (two_games "E" "T") ["Wii"] [] [2000; 2022]%Z = Ok out
    /\ (count_games out = 0 <-> sub = [])
    /\ (sub = [] -> avg_players out = NaN /\ avg_critics out = NaN).
Proof.
  apply (@count_zero_iff_no_row exact
           (two_games "E" "T") ["Wii"] [] 2000%Z 2022%Z).
  - reflexivity.
  - reflexivity.
  - distinct_labels.
Defined.

(** ** The loader keeps the order of the file *)

Section LoaderOrder.

Variable parse_number : string -> option Q.
Variable parse_int : string -> option Z.

Lemma cleaned_length (raw : Frame RawRecord) :
  List.length (cleaned parse_number parse_int raw) <= List.length raw.
Proof.
  induction raw as [|[i r] raw IH]; simpl; [lia|].
  destruct (clean parse_number parse_int r); simpl; lia.
Qed.

Lemma cleaned_index_sorted (raw : Frame RawRecord) :
  StronglySorted lt (index raw) ->
  StronglySorted lt (index (cleaned parse_number parse_int raw)).
Proof.
  induction raw as [|[i r] raw IH]; simpl; intros H; [constructor|].
  inversion H as [|? ? Hs Hf]; subst.
  destruct (clean parse_number parse_int r); simpl; [|now apply IH].
  constructor; [now apply IH|].
  rewrite Forall_forall in *. intros j Hj. apply Hf.
  now apply (@cleaned_index_incl parse_number parse_int raw).
Qed.

End LoaderOrder.

Lemma seq_sorted (n a : nat) : StronglySorted lt (seq a n).
Proof.
  revert a. induction n as [|n IH]; intros a; simpl; constructor.
  - apply IH.
  - apply Forall_forall. intros j Hj. apply in_seq in Hj. lia.
Qed.

Lemma read_csv_length (lines : list RawRecord) :
  List.length (read_csv lines) = List.length lines.
Proof.
  unfold read_csv. rewrite length_combine, length_seq. lia.
Qed.

(** X15.  When the loader returns, its table lists the lines it keeps in
    the order of the file, each under its line number: the labels increase
    strictly, each is below the number of lines, and the table has at most
    as many rows as the file has lines. *)
Theorem loader_keeps_file_order
  (parse_number : string -> option Q) (parse_int : string -> option Z)
  (lines : list RawRecord) (base : DataFrame) :
  loader parse_number parse_int lines = Ok base ->
  StronglySorted lt (index base)
  /\ (forall i, In i (index base) -> i < List.length lines)
  /\ List.length base <= List.length lines.
Proof.
  intros Hl. apply loader_Ok in Hl. destruct Hl as [_ ->].
  split; [|split].
  - apply cleaned_index_sorted. unfold read_csv.
    rewrite index_read_csv_from. apply seq_sorted.
  - intros i Hi. apply cleaned_index_incl in Hi. unfold read_csv in Hi.
    rewrite index_read_csv_from in Hi. apply in_seq in Hi. lia.
  - rewrite <- (read_csv_length lines). apply cleaned_length.
Qed.

Lemma loader_keeps_file_order_witness :
  let base := [ (0, game "A" "PS4" 2010 "Action" (80 # 1) (15 # 2) "E");
                (4, game "B" "PC" 2015 "RPG" (90 # 1) (8 # 1) "T") ] in
  StronglySorted lt (index base)
  /\ (forall i, In i (index base) -> i < List.length sample_lines)
  /\ List.length base <= List.length sample_lines.
Proof.
  apply (@loader_keeps_file_order sample_parse sample_int sample_lines).
  reflexivity.
Defined.

(** ** Years with a fraction *)

Lemma Qtrunc_window (q : Q) :
  (2000 <= Qtrunc q <= 2022)%Z
  <-> (inject_Z 2000 <= q)%Q /\ (q < inject_Z 2023)%Q.
Proof.
  unfold Qtrunc.
  pose proof (Qfloor_le q) as Hf. pose proof (Qlt_floor q) as Hl.
  rewrite inject_Z_plus in Hl. change (inject_Z 1) with 1%Q in Hl.
  destruct (Qle_bool 0 q) eqn:E.
  - rewrite (Zle_Qle 2000), (Zle_Qle _ 2022).
    change (inject_Z 2000) with (2000 # 1)%Q.
    change (inject_Z 2022) with (2022 # 1)%Q.
    change (inject_Z 2023) with (2023 # 1)%Q.
    split.
    + intros [H1 H2]. split; lra.
    + intros [H1 H2]. split.
      * rewrite <- (Zle_Qle 2000). rewrite <- (Qfloor_Z 2000).
        now apply Qfloor_resp_le.
      * assert (Hz : (Qfloor q < 2023)%Z).
        { rewrite Zlt_Qlt. change (inject_Z 2023) with (2023 # 1)%Q. lra. }
        rewrite <- (Zle_Qle _ 2022). lia.
  - assert (Hq : (q < 0)%Q).
    { apply Qnot_le_lt. intros H. apply Qle_bool_iff in H. congruence. }
    assert (Hc : (Qceiling q <= 0)%Z).
    { rewrite <- (Qceiling_Z 0). apply Qceiling_resp_le.
      change (inject_Z 0) with 0%Q. lra. }
    change (inject_Z 2000) with (2000 # 1)%Q. split.
    + intros [H _]. lia.
    + intros [H _]. lra.
Qed.

Lemma Qtrunc_nonneg (q : Q) : (0 <= q)%Q -> Qtrunc q = Qfloor q.
Proof.
  intros H. unfold Qtrunc. apply Qle_bool_iff in H. now rewrite H.
Qed.

(** X16.  A year read as a float is cut to its whole part before the window
    is tested (line 11 comes before line 17): a line with no missing cell
    and two numeric scores is kept exactly when its year [q] satisfies
    [2000 <= q < 2023], and its row then carries the whole part of [q]. *)
Theorem loader_cuts_the_year_before_the_window
  (parse_number : string -> option Q) (parse_int : string -> option Z)
  (lines : list RawRecord)
  (base : DataFrame) (i : nat) (r : RawRecord) (c : Row year_cell cell cell)
  (q cs us : Q) :
  loader parse_number parse_int lines = Ok base ->
  nth_error lines i = Some r ->
  present r = Some c ->
  Year_of_Release c = YearNumber (Float q) ->
  to_numeric_coerce parse_number (Critic_Score c) = Some cs ->
  to_numeric_coerce parse_number (User_Score c) = Some us ->
  ((exists g, In (i, g) base)
   <-> (inject_Z 2000 <= q)%Q /\ (q < inject_Z 2023)%Q)
  /\ (forall g, In (i, g) base -> Year_of_Release g = Qfloor q).
Proof.
  intros Hl Hr Hp Hy Hc Hu.
  apply loader_Ok in Hl. destruct Hl as [_ ->].
  assert (Hin : forall g,
            In (i, g) (cleaned parse_number parse_int (read_csv lines))
            <-> clean parse_number parse_int r = Some g).
  { intros g. rewrite cleaned_In. split.
    - intros [r' [H1 H2]]. apply read_csv_In in H1. congruence.
    - intros H. exists r. split; [now apply read_csv_In | exact H]. }
  assert (Hclean : forall g, clean parse_number parse_int r = Some g ->
                     Year_of_Release g = Qtrunc q
                     /\ (2000 <= Qtrunc q <= 2022)%Z).
  { intros g H. apply clean_Some in H.
    destruct H as [c' [H1 [_ [_ [H4 [H5 _]]]]]].
    assert (c' = c) by congruence. subst c'.
    rewrite Hy in H4. simpl in H4. inversion H4 as [E].
    rewrite <- E in H5. auto. }
  split.
  - rewrite <- Qtrunc_window. split.
    + intros [g H]. apply Hin, Hclean in H. tauto.
    + intros H.
      exists (with_Critic cs (with_User us (with_Year (Qtrunc q) c))).
      apply Hin. apply clean_Some. exists c. simpl.
      rewrite Hy. simpl. repeat split; tauto.
  - intros g H. apply Hin, Hclean in H. destruct H as [-> H].
    apply Qtrunc_nonneg. apply Qtrunc_window in H.
    change (inject_Z 2000) with (2000 # 1)%Q in H. lra.
Qed.

Lemma loader_cuts_the_year_before_the_window_witness :
  ((exists g, In (4, g) [ (0, game "A" "PS4" 2010 "Action" (80 # 1) (15 # 2) "E");
                          (4, game "B" "PC" 2015 "RPG" (90 # 1) (8 # 1) "T") ])
   <-> (inject_Z 2000 <= 4031 # 2)%Q /\ (4031 # 2 < inject_Z 2023)%Q)
  /\ (forall g, In (4, g) [ (0, game "A" "PS4" 2010 "Action" (80 # 1) (15 # 2) "E");
                            (4, game "B" "PC" 2015 "RPG" (90 # 1) (8 # 1) "T") ] ->
                Year_of_Release g = Qfloor (4031 # 2)).
Proof.
  eapply (@loader_cuts_the_year_before_the_window sample_parse sample_int
            sample_lines _ 4 _ _ (4031 # 2)%Q (90 # 1)%Q (8 # 1)%Q);
    reflexivity.
Defined.

(** ** The ends and the marks of the slider *)

Lemma fold_min_In (ys : list Z) (y : Z) : In (fold_left Z.min ys y) (y :: ys).
Proof.
  revert y. induction ys as [|a ys IH]; intros y; [now left|].
  change (fold_left Z.min (a :: ys) y) with (fold_left Z.min ys (Z.min y a)).
  destruct (IH (Z.min y a)) as [H | H].
  - rewrite <- H.
    destruct (Z.min_spec y a) as [[_ E] | [_ E]]; rewrite E;
      [left | right; left]; reflexivity.
  - right. right. exact H.
Qed.

Lemma fold_max_In (ys : list Z) (y : Z) : In (fold_left Z.max ys y) (y :: ys).
Proof.
  revert y. induction ys as [|a ys IH]; intros y; [now left|].
  change (fold_left Z.max (a :: ys) y) with (fold_left Z.max ys (Z.max y a)).
  destruct (IH (Z.max y a)) as [H | H].
  - rewrite <- H.
    destruct (Z.max_spec y a) as [[_ E] | [_ E]]; rewrite E;
      [right; left | left]; reflexivity.
  - right. right. exact H.
Qed.

Lemma in_year_column (d : DataFrame) (y : Z) :
  In y (values (column (@Year_of_Release Z Q Q) d))
  <-> exists i r, In (i, r) d /\ Year_of_Release r = y.
Proof.
  rewrite values_column, in_map_iff. split.
  - intros [[i r] [E H]]. eauto.
  - intros [i [r [H E]]]. now exists (i, r).
Qed.

Lemma min_year_attained (d : DataFrame) (lo : Z) :
  min_year d = Some lo -> exists i r, In (i, r) d /\ Year_of_Release r = lo.
Proof.
  unfold min_year. intros H. apply in_year_column.
  destruct (values (column (@Year_of_Release Z Q Q) d)) as [|y ys];
    [discriminate|].
  inversion H; subst. apply fold_min_In.
Qed.

Lemma max_year_attained (d : DataFrame) (hi : Z) :
  max_year d = Some hi -> exists i r, In (i, r) d /\ Year_of_Release r = hi.
Proof.
  unfold max_year. intros H. apply in_year_column.
  destruct (values (column (@Year_of_Release Z Q Q) d)) as [|y ys];
    [discriminate|].
  inversion H; subst. apply fold_max_In.
Qed.

Lemma min_year_None (d : DataFrame) : min_year d = None <-> d = [].
Proof.
  unfold min_year. rewrite values_column.
  destruct d; simpl; split; congruence.
Qed.

Lemma max_year_None (d : DataFrame) : max_year d = None <-> d = [].
Proof.
  unfold max_year. rewrite values_column.
  destruct d; simpl; split; congruence.
Qed.

(** X17.  The ends of the slider (lines 35, 36 and 78 to 81) on the table
    of the loader: both are years of rows of the table, the lower one is at
    most the upper one, and both lie from 2000 to 2022; they are NaN exactly
    when the table is empty. *)
Theorem slider_ends_lie_in_the_window
  (parse_number : string -> option Q) (parse_int : string -> option Z)
  (lines : list RawRecord) (base : DataFrame) :
  loader parse_number parse_int lines = Ok base ->
  (min_year base = None <-> base = [])
  /\ (max_year base = None <-> base = [])
  /\ forall lo hi,
       min_year base = Some lo -> max_year base = Some hi ->
       (2000 <= lo)%Z /\ (lo <= hi)%Z /\ (hi <= 2022)%Z
       /\ (exists i r, In (i, r) base /\ Year_of_Release r = lo)
       /\ (exists i r, In (i, r) base /\ Year_of_Release r = hi).
Proof.
  intros Hl. apply loader_Ok in Hl. destruct Hl as [_ E].
  assert (Hw : forall i g, In (i, g) base ->
                 (2000 <= Year_of_Release g <= 2022)%Z).
  { intros i g H. rewrite E in H. apply cleaned_In in H.
    destruct H as [r [_ H]]. apply clean_Some in H.
    destruct H as [c H]. tauto. }
  clear E.
  split; [apply min_year_None|]. split; [apply max_year_None|].
  intros lo hi Hlo Hhi.
  destruct (@min_year_attained base lo Hlo) as [i [r [Hr Er]]].
  destruct (@max_year_attained base hi Hhi) as [j [t [Ht Et]]].
  pose proof (Hw i r Hr). pose proof (Hw j t Ht).
  pose proof (@min_year_le base lo j t Hlo Ht).
  repeat split; try lia; eauto.
Qed.

Lemma slider_ends_lie_in_the_window_witness :
  let base := [ (0, game "A" "PS4" 2010 "Action" (80 # 1) (15 # 2) "E");
                (4, game "B" "PC" 2015 "RPG" (90 # 1) (8 # 1) "T") ] in
  (min_year base = None <-> base = [])
  /\ (max_year base = None <-> base = [])
  /\ forall lo hi,
       min_year base = Some lo -> max_year base = Some hi ->
       (2000 <= lo)%Z /\ (lo <= hi)%Z /\ (hi <= 2022)%Z
       /\ (exists i r, In (i, r) base /\ Year_of_Release r = lo)
       /\ (exists i r, In (i, r) base /\ Year_of_Release r = hi).
Proof.
  apply (@slider_ends_lie_in_the_window sample_parse sample_int sample_lines).
  reflexivity.
Defined.

Lemma to_int_proper (z : Z) :
  Z.to_int z <> Decimal.Pos Decimal.Nil /\ Z.to_int z <> Decimal.Neg Decimal.Nil.
Proof.
  destruct z as [|p|p]; simpl; split; try discriminate;
    intros H; inversion H as [E];
    exact (DecimalPos.Unsigned.to_uint_nonnil p E).
Qed.

(** The numeral of an integer reads back as that integer. *)
Lemma format_int_reads_back (z : Z) :
  option_map Z.of_int (NilZero.int_of_string (format_int z)) = Some z.
Proof.
  unfold format_int. destruct (to_int_proper z) as [H1 H2].
  rewrite (NilZero.isi _ H1 H2). simpl. f_equal. apply DecimalZ.of_to.
Qed.

Lemma format_int_inj (a b : Z) : format_int a = format_int b -> a = b.
Proof.
  intros H. pose proof (format_int_reads_back a) as Ha.
  rewrite H, format_int_reads_back in Ha. congruence.
Qed.

Lemma NoDup_map_inj {A B : Type} (f : A -> B) (l : list A) :
  (forall a b, f a = f b -> a = b) -> NoDup l -> NoDup (map f l).
Proof.
  intros Hf. induction 1 as [|x l Hx Hl IH]; simpl; constructor; auto.
  intros H. apply in_map_iff in H. destruct H as [y [E Hy]].
  apply Hf in E. subst. contradiction.
Qed.

(** X18.  The marks of the slider: there is one mark per year that occurs
    in the table and none else; its label is the decimal numeral of the
    year, which reads back as the year, so distinct years have distinct
    labels; and every marked year lies between the ends of the slider. *)
Theorem slider_marks_label_the_years (d : DataFrame) :
  (forall y s,
     In (y, s) (slider_marks d)
     <-> (exists i r, In (i, r) d /\ Year_of_Release r = y)
         /\ s = format_int y)
  /\ NoDup (map fst (slider_marks d))
  /\ NoDup (map snd (slider_marks d))
  /\ (forall y s,
        In (y, s) (slider_marks d) ->
        option_map Z.of_int (NilZero.int_of_string s) = Some y)
  /\ (forall y s lo hi,
        In (y, s) (slider_marks d) ->
        min_year d = Some lo -> max_year d = Some hi ->
        (lo <= y <= hi)%Z).
Proof.
  assert (Hin : forall y s,
            In (y, s) (slider_marks d)
            <-> (exists i r, In (i, r) d /\ Year_of_Release r = y)
                /\ s = format_int y).
  { intros y s. unfold slider_marks. rewrite in_map_iff. split.
    - intros [z [E H]]. inversion E; subst; clear E. split; [|reflexivity].
      apply (proj1 (@unique_In Z Z.eqb Z.eqb_eq _ _)) in H.
      apply in_map_iff in H. destruct H as [r [E H]].
      apply in_values in H. destruct H as [i H]. eauto.
    - intros [[i [r [H E]]] ->]. exists y. split; [reflexivity|].
      apply (proj2 (@unique_In Z Z.eqb Z.eqb_eq _ _)).
      apply in_map_iff. exists r. split; [exact E|].
      apply in_values. eauto. }
  assert (Hnd : NoDup (unique Z.eqb (map (@Year_of_Release Z Q Q) (values d))))
    by apply unique_NoDup, Z.eqb_eq.
  split; [exact Hin|]. split; [|split; [|split]].
  - unfold slider_marks. rewrite map_map. simpl. now rewrite map_id.
  - unfold slider_marks. rewrite map_map. simpl.
    apply NoDup_map_inj; [apply format_int_inj | exact Hnd].
  - intros y s H. apply Hin in H. destruct H as [_ ->].
    apply format_int_reads_back.
  - intros y s lo hi H Hlo Hhi. apply Hin in H.
    destruct H as [[i [r [H <-]]] _]. split.
    + eapply min_year_le; eauto.
    + eapply max_year_ge; eauto.
Qed.

(** ** From the start of the process on *)

(** X19.  Once the loader has returned a table, no slider value makes the
    callback raise: lines 9 to 26 leave that table under the global name
    [df], and in every state reached from there by any number of
    interactions, the callback run on any platforms, any genres and a
    two-element year range returns a result, whatever the float arithmetic
    of the libraries. *)
Theorem callbacks_on_a_loaded_table_never_raise
  (parse_number : string -> option Q) (parse_int : string -> option Z)
  (lines : list RawRecord) (base : DataFrame) :
  loader parse_number parse_int lines = Ok base ->
  module_body parse_number parse_int lines empty_state = (Ok tt, boot base)
  /\ forall s, reachable base s ->
     forall a platforms genres lo hi,
     exists out, fst (callback_with a platforms genres [lo; hi] s) = Ok out.
Proof.
  intros Hl. split; [now apply module_body_boot|].
  apply loader_Ok in Hl. destruct Hl as [_ E].
  intros s Hs a platforms genres lo hi.
  pose proof (reachable_base_table Hs) as Hb.
  apply base_table_holds in Hb. destruct Hb as [g [Hdf Hg]].
  destruct (@callback_with_run a s g base platforms genres [lo; hi] Hdf Hg)
    as [E' _].
  rewrite E', select_years.
  - simpl. eauto.
  - rewrite E. apply cleaned_unique_index, read_csv_unique_index.
Qed.

Lemma callbacks_on_a_loaded_table_never_raise_witness :
  let base := [ (0, game "A" "PS4" 2010 "Action" (80 # 1) (15 # 2) "E");
                (4, game "B" "PC" 2015 "RPG" (90 # 1) (8 # 1) "T") ] in
  module_body sample_parse sample_int sample_lines empty_state
  = (Ok tt, boot base)
  /\ forall s, reachable base s ->
     forall a platforms genres lo hi,
     exists out, fst (callback_with a platforms genres [lo; hi] s) = Ok out.
Proof.
  apply (@callbacks_on_a_loaded_table_never_raise sample_parse sample_int
           sample_lines).
  reflexivity.
Defined.
